(** * lib/handlers/targetHandler.js

  A shallow embedding of taiko's target handler: the identifier matchers
  ([isMatchingUrl], [isMatchingRegex], [isMatchingTarget]), the target
  registry ([register], [unregister], [clearRegister]), the browser-context
  operations ([createTarget], [createBrowserContext], ...) and target
  discovery ([waitForTargetToBeCreated], [getCriTargets]).

  JavaScript strings are [string]; [undefined] and [null] are [None] where a
  value is otherwise a string; exceptions and rejected promises are the left
  summand of a [sum]; the module-level variables and the remote browser are
  threaded through an explicit state. *)

From Stdlib Require Import ZArith Ascii String List Lia.
From stdpp Require Import gmap strings list.
From Equations Require Import Equations.

Local Open Scope string_scope.
Local Open Scope Z_scope.

(** ** JavaScript strings *)

Module Js.

(** [s === ''], the only falsy string. *)
Definition is_empty (s : string) : bool :=
  match s with EmptyString => true | String _ _ => false end.

(** [s.startsWith(p)]. *)
Fixpoint startsWith (p s : string) : bool :=
  match p, s with
  | EmptyString, _ => true
  | String a p', String b s' => Ascii.eqb a b && startsWith p' s'
  | String _ _, EmptyString => false
  end.

(** [s.includes(sub)]. *)
Fixpoint includes (s sub : string) : bool :=
  startsWith sub s ||
  match s with
  | EmptyString => false
  | String _ s' => includes s' sub
  end.

(** [s.split(sep)] for a one-character separator: never the empty list. *)
Fixpoint split (sep : ascii) (s : string) : list string :=
  match s with
  | EmptyString => [EmptyString]
  | String c s' =>
      if Ascii.eqb c sep then EmptyString :: split sep s'
      else match split sep s' with
           | seg :: segs => String c seg :: segs
           | [] => [String c EmptyString]
           end
  end.

(** [segs.join(sep)]. *)
Fixpoint join (sep : string) (segs : list string) : string :=
  match segs with
  | [] => EmptyString
  | [seg] => seg
  | seg :: segs' => seg ++ sep ++ join sep segs'
  end.

(** The last character of [s], if any. *)
Fixpoint last_char (s : string) : option ascii :=
  match s with
  | EmptyString => None
  | String c EmptyString => Some c
  | String _ s' => last_char s'
  end.

Definition first_char (s : string) : option ascii :=
  match s with EmptyString => None | String c _ => Some c end.

(** [s] without its last character. *)
Fixpoint drop_last (s : string) : string :=
  match s with
  | EmptyString => EmptyString
  | String _ EmptyString => EmptyString
  | String c s' => String c (drop_last s')
  end.

Definition is_upper (c : ascii) : bool :=
  let n := nat_of_ascii c in (65 <=? n)%nat && (n <=? 90)%nat.
Definition is_lower (c : ascii) : bool :=
  let n := nat_of_ascii c in (97 <=? n)%nat && (n <=? 122)%nat.
Definition is_digit (c : ascii) : bool :=
  let n := nat_of_ascii c in (48 <=? n)%nat && (n <=? 57)%nat.

Definition lower_char (c : ascii) : ascii :=
  if is_upper c then ascii_of_nat (nat_of_ascii c + 32) else c.

(** [s.toLowerCase()] on ASCII. *)
Fixpoint toLowerCase (s : string) : string :=
  match s with
  | EmptyString => EmptyString
  | String c s' => String (lower_char c) (toLowerCase s')
  end.

(** [s] read backwards. *)
Definition reverse (s : string) : string :=
  string_of_list_ascii (rev (list_ascii_of_string s)).

(** The longest prefix of [s] whose characters satisfy [p], and the rest. *)
Fixpoint span (p : ascii -> bool) (s : string) : string * string :=
  match s with
  | EmptyString => (EmptyString, EmptyString)
  | String c s' =>
      if p c then let '(a, b) := span p s' in (String c a, b)
      else (EmptyString, s)
  end.

End Js.

(** ** Node's [path.join] (POSIX flavour) *)

Module Path.

Definition dot : string := ".".
Definition dotdot : string := "..".
Definition slash : string := "/".

(** [normalizeString]: the stack of kept segments is held reversed.  An empty
    segment and [.] are dropped; [..] removes the segment before it, unless
    there is none or it is itself [..], in which case it is kept when the
    path is relative ([allowAboveRoot]) and dropped otherwise. *)
Fixpoint normalizeSegments (allowAboveRoot : bool) (kept : list string)
    (segs : list string) : list string :=
  match segs with
  | [] => rev kept
  | seg :: segs' =>
      if Js.is_empty seg || String.eqb seg dot then
        normalizeSegments allowAboveRoot kept segs'
      else if String.eqb seg dotdot then
        match kept with
        | top :: kept' =>
            if String.eqb top dotdot then
              normalizeSegments allowAboveRoot
                (if allowAboveRoot then dotdot :: kept else kept) segs'
            else normalizeSegments allowAboveRoot kept' segs'
        | [] =>
            normalizeSegments allowAboveRoot
              (if allowAboveRoot then [dotdot] else []) segs'
        end
      else normalizeSegments allowAboveRoot (seg :: kept) segs'
  end.

Definition normalizeString (path : string) (allowAboveRoot : bool) : string :=
  Js.join slash (normalizeSegments allowAboveRoot [] (Js.split "/" path)).

(** [path.posix.normalize]. *)
Definition normalize (path : string) : string :=
  if Js.is_empty path then dot
  else
    let isAbsolute := Js.startsWith slash path in
    let trailingSeparator :=
      match Js.last_char path with
      | Some c => Ascii.eqb c "/"
      | None => false
      end in
    let p := normalizeString path (negb isAbsolute) in
    if Js.is_empty p then
      if isAbsolute then slash
      else if trailingSeparator then "./" else dot
    else
      let p' := if trailingSeparator then p ++ slash else p in
      if isAbsolute then slash ++ p' else p'.

(** [path.join(a, b)]: the non-empty arguments joined by [/], normalized. *)
Definition join (a b : string) : string :=
  match Js.is_empty a, Js.is_empty b with
  | true, true => dot
  | false, true => normalize a
  | true, false => normalize b
  | false, false => normalize (a ++ slash ++ b)
  end.

End Path.

(** ** What is thrown *)

(** The error object of a protocol reply, as chrome-remote-interface attaches
    it to the error it rejects with ([error.response]). *)
Record protocolResponse : Type := mkResponse {
  code : Z;
  message : string
}.

(** What a [throw] or a rejected promise carries: the engine's [TypeError]
    and [URIError], [new Error(msg)], and the errors of the remote
    connection. *)
Inductive error : Type :=
| TypeError (msg : string)
| Error (msg : string)
| RemoteError (msg : string) (response : option protocolResponse)
| URIError (msg : string).

(** [error.response]: only an error of the remote connection has one. *)
Definition error_response (e : error) : option protocolResponse :=
  match e with
  | RemoteError _ r => r
  | TypeError _ | Error _ | URIError _ => None
  end.

(** ** Node's legacy [url.parse]

    The fields the handler reads: [protocol], [host], [pathname] (each [null]
    when the URL has no such part) and [href]; and the one exception the
    function documents, the [URIError] for credentials that cannot be
    decoded.  The model follows [Url.prototype.parse] and
    [Url.prototype.format] of Node's lib/url.js (as of Node 14) on URLs
    written in ASCII without white space, backslashes and the characters Node
    escapes in a path (braces, angle brackets, bar, caret, accent, quotes).
    Not modelled: the trimming and escaping of those characters, host names
    given after [//] without a protocol, the re-encoding of credentials in
    [href] (they are put back as written), the encoding of international host
    names, escapes of non-ASCII characters in credentials, and the errors
    later versions of Node throw for host names they refuse. *)

Module Url.

Record parsed : Type := mkParsed {
  protocol : option string;
  host : option string;
  pathname : option string;
  href : string
}.

Definition slashedProtocol (p : string) : bool :=
  existsb (String.eqb p)
    ["http"; "http:"; "https"; "https:"; "ftp"; "ftp:"; "gopher"; "gopher:";
     "file"; "file:"; "ws"; "ws:"; "wss"; "wss:"].

Definition hostlessProtocol (p : string) : bool :=
  existsb (String.eqb p) ["javascript"; "javascript:"].

Definition isProtocolChar (c : ascii) : bool :=
  Js.is_lower c || Js.is_upper c || Js.is_digit c ||
  Ascii.eqb c "." || Ascii.eqb c "+" || Ascii.eqb c "-".

(** [protocolPattern.exec(rest)] with [/^[a-z0-9.+-]+:/i]: the matched
    protocol, colon included, and what follows it. *)
Definition matchProtocol (rest : string) : option (string * string) :=
  match Js.span isProtocolChar rest with
  | (String c p, String sep r) =>
      if Ascii.eqb sep ":" then Some (String c p ++ ":", r) else None
  | _ => None
  end.

(** The characters that end the part of the URL the host is looked for in. *)
Definition isHostEnd (c : ascii) : bool :=
  Ascii.eqb c "/" || Ascii.eqb c "?" || Ascii.eqb c "#".

(** The characters "never ever allowed in a hostname": tab, line feed,
    carriage return, space, double quote, percent, single quote, semicolon,
    angle brackets, backslash, caret, accent, braces and bar; and the three
    above. *)
Definition isNonHost (c : ascii) : bool :=
  isHostEnd c ||
  existsb (Nat.eqb (nat_of_ascii c))
    [9; 10; 13; 32; 34; 37; 39; 59; 60; 62; 92; 94; 96; 123; 124; 125]%nat.

(** The characters [getHostname] accepts in a host name. *)
Definition isHostnameChar (c : ascii) : bool :=
  Js.is_lower c || Js.is_upper c || Js.is_digit c ||
  Ascii.eqb c "." || Ascii.eqb c "-" || Ascii.eqb c "+" || Ascii.eqb c "_" ||
  (127 <? nat_of_ascii c)%nat.

Definition isHex (c : ascii) : bool :=
  Js.is_digit c ||
  (let n := nat_of_ascii c in
   ((65 <=? n) && (n <=? 70) || (97 <=? n) && (n <=? 102))%nat).

(** Whether [decodeURIComponent] accepts the escapes of [s]: every percent
    sign is followed by two hexadecimal digits. *)
Fixpoint decodable (s : string) : bool :=
  match s with
  | EmptyString => true
  | String c rest =>
      if Ascii.eqb c "%" then
        match rest with
        | String a (String b r) => isHex a && isHex b && decodable r
        | _ => false
        end
      else decodable rest
  end.

(** What stands before the last [@] of [s], if there is one, and what stands
    after it. *)
Definition splitLastAt (s : string) : option string * string :=
  let '(after_rev, before_rev) :=
    Js.span (fun c => negb (Ascii.eqb c "@")) (Js.reverse s) in
  match before_rev with
  | String _ auth_rev => (Some (Js.reverse auth_rev), Js.reverse after_rev)
  | EmptyString => (None, s)
  end.

(** [parseHost]: a final [:digits] is the port; a bare final colon is dropped. *)
Definition parseHost (h : string) : string * string :=
  let '(digits_rev, before_rev) := Js.span Js.is_digit (Js.reverse h) in
  match before_rev with
  | String c name_rev =>
      if Ascii.eqb c ":" then (Js.reverse name_rev, Js.reverse digits_rev)
      else (h, EmptyString)
  | EmptyString => (h, EmptyString)
  end.

Definition orEmpty (o : option string) : string :=
  match o with Some s => s | None => EmptyString end.

Definition nonEmpty (s : string) : option string :=
  if Js.is_empty s then None else Some s.

Definition skip2 (s : string) : string :=
  match s with String _ (String _ r) => r | _ => s end.

Definition dropFirst (s : string) : string :=
  match s with String _ r => r | EmptyString => EmptyString end.

(** What the host part of a URL gives. *)
Record authority : Type := mkAuthority {
  auth_text : string;   (* the credentials with their [@], as put in [href] *)
  auth_host : string;    (* [this.host] *)
  auth_hostname : string; (* [this.hostname] *)
  auth_rest : string      (* what is left to parse *)
}.

(** The block "there's a hostname" of [parse]: the credentials up to the
    last [@] are decoded, which may throw; the host runs to the first
    character that cannot be in one; the port is split off; the host name is
    cut at the first character [getHostname] rejects, what is cut going back
    in front of the rest behind a slash; a host name of more than 255
    characters is emptied, any other is put in lower case; a host name in
    square brackets is kept as it is. *)
Definition parseAuthority (rest : string) : error + authority :=
  let '(section, afterSection) := Js.span (fun c => negb (isHostEnd c)) rest in
  let '(auth, hostPart) := splitLastAt section in
  if negb (decodable (orEmpty auth)) then inl (URIError "URI malformed")
  else
    let '(h, tail) := Js.span (fun c => negb (isNonHost c)) hostPart in
    let rest := tail ++ afterSection in
    let '(name, port) := parseHost h in
    let ipv6 :=
      Js.startsWith "[" name &&
      match Js.last_char name with Some c => Ascii.eqb c "]" | None => false end in
    let '(valid, invalid) :=
      if ipv6 then (name, EmptyString) else Js.span isHostnameChar name in
    let rest := if Js.is_empty invalid then rest else "/" ++ invalid ++ rest in
    let hostname :=
      if (255 <? String.length valid)%nat then EmptyString
      else Js.toLowerCase valid in
    let host := if Js.is_empty port then hostname else hostname ++ ":" ++ port in
    let rest :=
      if ipv6 && negb (Js.startsWith "/" rest) then "/" ++ rest else rest in
    inr (mkAuthority
           (match auth with Some a => a ++ "@" | None => EmptyString end)
           host
           (if ipv6 then Js.drop_last (dropFirst hostname) else hostname)
           rest).

Definition parse (url : string) : error + parsed :=
  let proto := matchProtocol url in
  let lowerProto := option_map (fun pr => Js.toLowerCase (fst pr)) proto in
  let rest := match proto with Some pr => snd pr | None => url end in
  let hostless :=
    match lowerProto with Some p => hostlessProtocol p | None => false end in
  let slashes :=
    match proto with Some _ => Js.startsWith "//" rest | None => false end in
  let this_slashes := slashes && negb hostless in
  let rest := if this_slashes then skip2 rest else rest in
  let hasHost :=
    negb hostless &&
    (slashes ||
     match proto with Some pr => negb (slashedProtocol (fst pr)) | None => false end) in
  match (if hasHost
         then match parseAuthority rest with
              | inl e => inl e
              | inr a => inr (Some a, auth_rest a)
              end
         else inr (None, rest)) with
  | inl e => inl e
  | inr (authority, rest) =>
      let this_host := option_map auth_host authority in
      let this_hostname :=
        match authority with Some a => auth_hostname a | None => EmptyString end in
      let '(beforeHash, hash) := Js.span (fun c => negb (Ascii.eqb c "#")) rest in
      let '(path, search) := Js.span (fun c => negb (Ascii.eqb c "?")) beforeHash in
      let this_pathname :=
        match nonEmpty path with
        | Some p => Some p
        | None =>
            match lowerProto with
            | Some p =>
                if slashedProtocol p && negb (Js.is_empty this_hostname)
                then Some Path.slash else None
            | None => None
            end
        end in
      let protocol' := orEmpty lowerProto in
      let host' :=
        match authority with
        | Some a =>
            if Js.is_empty (auth_host a) then EmptyString
            else auth_text a ++ auth_host a
        | None => EmptyString
        end in
      let slashed := this_slashes || slashedProtocol protocol' in
      let authoritative := this_slashes || negb (Js.is_empty host') in
      let pathname' :=
        let p := orEmpty this_pathname in
        if slashed && authoritative && negb (Js.is_empty p)
           && negb (Js.startsWith "/" p)
        then "/" ++ p else p in
      let host'' :=
        if slashed then
          if authoritative then "//" ++ host'
          else if Js.startsWith "file" protocol' then "//" else host'
        else host' in
      inr {| protocol := lowerProto;
             host := this_host;
             pathname := this_pathname;
             href := protocol' ++ host'' ++ pathname' ++ search ++ hash |}
  end.

End Url.

(** ** Values of the handler *)

(** A value returned by a matcher: booleans, the stored id or [undefined]
    left by [&&], the match array or [null] left by [String.prototype.match]. *)
Inductive value : Type :=
| VUndefined
| VNull
| VBool (b : bool)
| VString (s : string)
| VMatch (groups : list string).

Definition truthy (v : value) : bool :=
  match v with
  | VUndefined | VNull => false
  | VBool b => b
  | VString s => negb (Js.is_empty s)
  | VMatch _ => true
  end.

(** [a || b] on values already computed. *)
Definition js_or (a b : value) : value := if truthy a then a else b.

(** A regular expression is what it answers to [str.match(re)]: the match
    array, or [None] for [null]. *)
Definition RegExp : Type := string -> option (list string).

Definition str_match (s : string) (re : RegExp) : value :=
  match re s with
  | Some groups => VMatch groups
  | None => VNull
  end.

(** The identifier a caller passes: nothing, a string, a regular expression,
    or an object, of which only the [name] property is read. *)
Inductive identifier : Type :=
| IUndefined
| IString (s : string)
| IRegExp (re : RegExp)
| IObject (name : option string).

(** [!identifier]. *)
Definition falsy (i : identifier) : bool :=
  match i with
  | IUndefined => true
  | IString s => Js.is_empty s
  | IRegExp _ | IObject _ => false
  end.

(** [identifier.name]: reading a property of [undefined] throws; strings and
    regular expressions have no [name]. *)
Definition identifier_name (i : identifier) : error + option string :=
  match i with
  | IUndefined => inl (TypeError "Cannot read property 'name' of undefined")
  | IString _ | IRegExp _ => inr None
  | IObject n => inr n
  end.

(** Modelled from the spec: [isString] of ../helper is not under src/; the
    URL match is "applicable only when identifier is a string". *)
Definition isString (i : identifier) : bool :=
  match i with IString _ => true | _ => false end.

(** Modelled from the spec: [isRegex] of ../helper is not under src/; the
    regex match is "applicable only when identifier is a regular expression". *)
Definition isRegex (i : identifier) : bool :=
  match i with IRegExp _ => true | _ => false end.

(** An entry of the list [cri.List] answers with. *)
Module Target.
Record t : Type := mk {
  id : string;
  url : string;
  title : string;
  type : string;
  browserContextId : option string
}.
(** [target.url = u] *)
Definition set_url (u : string) (x : t) : t :=
  mk (id x) u (title x) (type x) (browserContextId x).
Definition is_page (x : t) : bool := String.eqb (type x) "page".
End Target.

(** ** Collaborators

    [url] and [path] are Node's; [handleUrlRedirection] (../helper),
    [escapeHtml] and [trimCharLeft] (../util) belong to this repository but
    are not under src/, so the handler is parameterised by them.
    [url.parse] may throw on a string it is given; [trimCharLeft] receives
    [parsedUrl.pathname], which may be [null], and is allowed to throw; the
    others are functions on strings that return. *)
Record Env : Type := mkEnv {
  url_parse : string -> error + Url.parsed;
  path_join : string -> string -> string;
  handleUrlRedirection : string -> string;
  escapeHtml : string -> string;
  trimCharLeft : option string -> string -> error + string
}.

(** The handler running on Node: [url.parse] and [path.join] as modelled
    above, the repository's helpers left open. *)
Definition node (redirect escape : string -> string)
    (trim : option string -> string -> error + string) : Env :=
  mkEnv Url.parse Path.join redirect escape trim.

(** [o ? o : ''] for a string or [null]. *)
Definition orEmpty (o : option string) : string :=
  match o with Some s => s | None => EmptyString end.

(** ** Identifier matcher *)

Section Matcher.
Variable env : Env.

Definition isMatchingRegex (target : Target.t) (targetRegex : identifier)
    : error + value :=
  match targetRegex with
  | IRegExp re =>
      match url_parse env (Target.url target) with
      | inl e => inl e
      | inr parsedUrl =>
          let host := orEmpty (Url.host parsedUrl) in
          match trimCharLeft env (Url.pathname parsedUrl) "/" with
          | inl e => inl e
          | inr trimmedPath =>
              let urlPath := path_join env host trimmedPath in
              match Url.protocol parsedUrl with
              | None => inl (TypeError "Cannot read property 'concat' of null")
              | Some protocol =>
                  match trimCharLeft env (Some host) "/" with
                  | inl e => inl e
                  | inr trimmedHost =>
                      let urlHrefPath := protocol ++ "//" ++ trimmedHost in
                      inr (js_or (str_match (Target.title target) re)
                          (js_or (str_match urlPath re)
                          (js_or (str_match (Url.href parsedUrl) re)
                                 (str_match urlHrefPath re))))
                  end
              end
          end
      end
  | _ => inr (VBool false)
  end.

(** The empty string is falsy and is returned without being parsed. *)
Definition prependHttp (targetUrl : string) : error + string :=
  if Js.is_empty targetUrl then inr targetUrl
  else
    match url_parse env targetUrl with
    | inl e => inl e
    | inr parsed =>
        match Url.host parsed with
        | None => inr ("http://" ++ targetUrl)
        | Some _ => inr targetUrl
        end
    end.

(** The three comparisons [isMatchingUrl] returns the disjunction of, from
    the title, the two parsed URLs and the identifier as [prependHttp] left
    it. *)
Definition urlChecks (title : string) (parsedUrl parsedTargetUrl : Url.parsed)
    (identifier : string) : bool :=
  let host := orEmpty (Url.host parsedUrl) in
  let targetHost := orEmpty (Url.host parsedTargetUrl) in
  let pathname := orEmpty (Url.pathname parsedUrl) in
  let targetPathname := orEmpty (Url.pathname parsedTargetUrl) in
  let urlPath := path_join env host pathname in
  let identifierPath := path_join env targetHost targetPathname in
  String.eqb title (escapeHtml env identifier) ||
  String.eqb urlPath
    (if Js.is_empty identifierPath then identifier else identifierPath) ||
  String.eqb (Url.href parsedUrl) identifier.

(** Returns the outcome together with the target as the call leaves it: the
    function assigns to [target.url], after the three calls of [url.parse];
    when one of them throws the target is left as it was. *)
Definition isMatchingUrl (target : Target.t) (identifier : identifier)
    : (error + value) * Target.t :=
  match identifier with
  | IString s =>
      match prependHttp s with
      | inl e => (inl e, target)
      | inr identifier =>
          match url_parse env (Target.url target) with
          | inl e => (inl e, target)
          | inr parsedUrl =>
              match url_parse env identifier with
              | inl e => (inl e, target)
              | inr parsedTargetUrl =>
                  let target' :=
                    Target.set_url (handleUrlRedirection env (Target.url target))
                      target in
                  (inr (VBool (urlChecks (Target.title target') parsedUrl
                                 parsedTargetUrl identifier)),
                   target')
              end
          end
      end
  | _ => (inr (VBool false), target)
  end.

End Matcher.

(** ** Target registry *)

(** [targetRegistry]: a [Map] from names to target ids. *)
Abbreviation registry := (gmap string string).

(** [name && target]: both defined and non-empty. *)
Definition present (o : option string) : bool :=
  match o with Some s => negb (Js.is_empty s) | None => false end.

(** [targetRegistry.get(name)]: [undefined] is never a stored key. *)
Definition registry_get (name : option string) (reg : registry) : option string :=
  match name with
  | Some n => reg !! n
  | None => None
  end.

(** [register(name, target)]: the registry it leaves and the value it returns
    ([None] is [undefined]). *)
Definition register (name target : option string) (reg : registry)
    : registry * option string :=
  match name, target with
  | Some n, Some t =>
      if present name && present target then (<[n := t]> reg, None)
      else (reg, registry_get name reg)
  | _, _ => (reg, registry_get name reg)
  end.

Definition unregister (name : string) (reg : registry) : registry :=
  delete name reg.

Definition clearRegister (reg : registry) : registry := ∅.

Definition isMatchingTarget (reg : registry) (target : Target.t)
    (identifier : identifier) : error + value :=
  match identifier_name identifier with
  | inl e => inl e
  | inr name =>
      let storedTarget := snd (register name None reg) in
      inr (match storedTarget with
           | None => VUndefined
           | Some stored =>
               if Js.is_empty stored then VString stored
               else VBool (String.eqb stored (Target.id target))
           end)
  end.

(** ** The remote browser and the module's state *)

(** The requests the handler sends: the [Target] domain methods it calls on
    [criTarget] and [browserDebugUrlTarget], and [cri.List].  An option that
    is [undefined] is [None]. *)
Inductive call : Type :=
| CreateBrowserContext
| CreateTarget (url : string) (browserContextId : option string)
| DisposeBrowserContext (browserContextId : option string)
| ActivateTarget (targetId : string)
| GetTargetInfo (targetId : string)
| ListTargets.

(** What the handler does that the outside can observe, oldest first. *)
Inductive event : Type :=
| Called (c : call)
| Logged (e : error)
| Slept (ms : Z).

(** The browser at the other end: how each request is answered (resolved, on
    the right, or rejected) given everything that happened before it. *)
Record Remote : Type := mkRemote {
  onCreateBrowserContext : list event -> error + string;
  onCreateTarget : list event -> string -> option string -> error + string;
  onDisposeBrowserContext : list event -> option string -> error + unit;
  onActivateTarget : list event -> string -> error + unit;
  onGetTargetInfo : list event -> string -> error + option string;
  onList : list event -> error + list Target.t
}.

(** The module-level variables, and the trace of events so far. *)
Record state : Type := mkState {
  targetRegistry : registry;
  activeBrowserContextId : option string;
  activeTargetId : option string;
  trace : list event
}.

Definition emit (ev : event) (st : state) : state :=
  mkState (targetRegistry st) (activeBrowserContextId st) (activeTargetId st)
    (trace st ++ [ev]).

Definition set_activeBrowserContextId (c : option string) (st : state) : state :=
  mkState (targetRegistry st) c (activeTargetId st) (trace st).

(** An [async] function: from the state it starts in to its outcome (thrown
    or rejected on the left, returned or resolved on the right) and the state
    it leaves. *)
Definition M (A : Type) : Type := state -> (error + A) * state.

Definition ret {A} (a : A) : M A := fun st => (inr a, st).

Definition throw {A} (e : error) : M A := fun st => (inl e, st).

Definition bind {A B} (m : M A) (k : A -> M B) : M B :=
  fun st =>
    match m st with
    | (inr a, st') => k a st'
    | (inl e, st') => (inl e, st')
    end.

(** [try { m } catch (err) { handler }], and [promise.catch(handler)]. *)
Definition catch {A} (m : M A) (handler : error -> M A) : M A :=
  fun st =>
    match m st with
    | (inr a, st') => (inr a, st')
    | (inl e, st') => handler e st'
    end.

Definition get_state : M state := fun st => (inr st, st).

Definition modify (f : state -> state) : M unit := fun st => (inr tt, f st).

Notation "'let*' x ':=' c1 'in' c2" := (bind c1 (fun x => c2))
  (at level 10, x name, c1 at level 100, c2 at level 200).

(** [await] of a request: it is recorded, then answered by the browser. *)
Definition request {A} (c : call) (answer : list event -> error + A) : M A :=
  fun st => (answer (trace st), emit (Called c) st).

(** [logEvent(err)] *)
Definition logEvent (e : error) : M unit := modify (emit (Logged e)).

(** [new Promise((r) => setTimeout(r, ms))] awaited. *)
Definition sleep (ms : Z) : M unit := modify (emit (Slept ms)).

Section Handler.
Variable remote : Remote.

(** ** Browser context manager *)

(** What [createdTarget] holds in [createTarget]: the reply of the request,
    an object with a [targetId], or what the [catch] handler returned, the
    [targetId] string of the second reply. *)
Inductive created : Type :=
| Reply (targetId : string)
| Id (s : string).

(** [createdTarget.targetId]: a string has no such property. *)
Definition created_targetId (c : created) : option string :=
  match c with
  | Reply targetId => Some targetId
  | Id _ => None
  end.

(** The test of the [catch] handler of [createTarget]. *)
Definition staleContext (e : error) : bool :=
  match error_response e with
  | Some r =>
      negb (Js.is_empty (message r)) &&
      (Js.includes (message r) "Failed to find browser context with id" ||
       Js.includes (message r) "browserContextId")
  | None => false
  end.

Definition createTarget (url : string) : M (option string) :=
  let* st := get_state in
  let* createdTarget :=
    catch
      (let* reply :=
         request (CreateTarget url (activeBrowserContextId st))
           (fun h => onCreateTarget remote h url (activeBrowserContextId st)) in
       ret (Reply reply))
      (fun error =>
         if staleContext error then
           let* reply :=
             request (CreateTarget url None)
               (fun h => onCreateTarget remote h url None) in
           ret (Id reply)
         else throw error) in
  ret (created_targetId createdTarget).

Definition createBrowserContext (url : string) : M (option string) :=
  let* browserContextId :=
    request CreateBrowserContext (onCreateBrowserContext remote) in
  let* _ := modify (set_activeBrowserContextId (Some browserContextId)) in
  createTarget url.

Definition getBrowserContextIdForTarget (targetId : string) : M (option string) :=
  request (GetTargetInfo targetId) (fun h => onGetTargetInfo remote h targetId).

Definition closeBrowserContext (targetId : string) : M bool :=
  let* browserContextId := getBrowserContextIdForTarget targetId in
  let* _ :=
    request (DisposeBrowserContext browserContextId)
      (fun h => onDisposeBrowserContext remote h browserContextId) in
  let* st := get_state in
  ret (bool_decide (browserContextId = activeBrowserContextId st)).

Definition switchBrowserContext (targetId : string) : M unit :=
  let* browserContextId := getBrowserContextIdForTarget targetId in
  let* _ := modify (set_activeBrowserContextId browserContextId) in
  request (ActivateTarget targetId) (fun h => onActivateTarget remote h targetId).

(** ** Target discovery *)

Definition noTargets : error := Error "No targets created yet!".

(** The [try] block of [waitForTargetToBeCreated]. *)
Definition findPage : M Target.t :=
  let* browserTargets := request ListTargets (onList remote) in
  match browserTargets with
  | [] => throw noTargets
  | _ :: _ =>
      match List.find Target.is_page browserTargets with
      | None => throw noTargets
      | Some target => ret target
      end
  end.

Equations? waitForTargetToBeCreated (n : Z) (st : state)
    : (error + Target.t) * state by wf (Z.to_nat n) lt :=
  waitForTargetToBeCreated n st with findPage st => {
    | (inr target, st1) => (inr target, st1);
    | (inl err, st1) with Z_lt_dec n 2 => {
        | left _ => (inl err, emit (Logged err) st1);
        | right _ =>
            waitForTargetToBeCreated (n - 1)
              (emit (Slept 100) (emit (Logged err) st1)) } }.
Proof. lia. Qed.

(** The object [getCriTargets] resolves with. *)
Record partition : Type := mkPartition {
  matching : list Target.t;
  others : list Target.t
}.

Variable env : Env.

(** The body of the [for] loop, from the response built so far. *)
Definition classify (identifier : identifier) (reg : registry)
    (response : partition) (target : Target.t) : error + partition :=
  let push_matching t := mkPartition (matching response ++ [t]) (others response) in
  let push_others t := mkPartition (matching response) (others response ++ [t]) in
  match isMatchingUrl env target identifier with
  | (inl e, _) => inl e
  | (inr byUrl, target) =>
      if truthy byUrl then inr (push_matching target)
      else
        match isMatchingRegex env target identifier with
        | inl e => inl e
        | inr byRegex =>
            if truthy byRegex then inr (push_matching target)
            else
              match isMatchingTarget reg target identifier with
              | inl e => inl e
              | inr byName =>
                  if truthy byName then inr (push_matching target)
                  else inr (push_others target)
              end
        end
  end.

Fixpoint classifyAll (identifier : identifier) (reg : registry)
    (response : partition) (pages : list Target.t) : error + partition :=
  match pages with
  | [] => inr response
  | target :: rest =>
      match classify identifier reg response target with
      | inl e => inl e
      | inr response' => classifyAll identifier reg response' rest
      end
  end.

Definition getCriTargets (identifier : identifier) : M partition :=
  let* targets := request ListTargets (onList remote) in
  let pages := List.filter Target.is_page targets in
  let* st := get_state in
  if falsy identifier then
    ret (mkPartition
           (List.filter
              (fun target => bool_decide (Some (Target.id target) = activeTargetId st))
              pages)
           (List.filter
              (fun target => negb (bool_decide (Some (Target.id target) = activeTargetId st)))
              pages))
  else
    match classifyAll identifier (targetRegistry st) (mkPartition [] []) pages with
    | inl e => throw e
    | inr response => ret response
    end.

End Handler.

(** ** Registry invariant *)

(** No stored id is the empty string: [register] only writes a truthy
    [target]. *)
Definition registry_ok (reg : registry) : Prop :=
  forall name stored, reg !! name = Some stored -> stored <> EmptyString.

(** The registries the three exported operations can produce. *)
Inductive reachable : registry -> Prop :=
| reach_empty : reachable ∅
| reach_register name target reg :
    reachable reg -> reachable (fst (register name target reg))
| reach_unregister name reg :
    reachable reg -> reachable (unregister name reg)
| reach_clear reg :
    reachable reg -> reachable (clearRegister reg).

(** ** The URL match as the specification words it

    "Resolves the target's URL through a redirect-resolution collaborator
    first", then parses and compares: the same three checks as
    [isMatchingUrl], on the resolved URL.  Kept apart from the embedding of
    the source, to be compared with it. *)
Definition isMatchingUrl_resolvedFirst (env : Env) (target : Target.t)
    (identifier : identifier) : (error + value) * Target.t :=
  match identifier with
  | IString s =>
      match prependHttp env s with
      | inl e => (inl e, target)
      | inr identifier =>
          let target' :=
            Target.set_url (handleUrlRedirection env (Target.url target)) target in
          match url_parse env (Target.url target') with
          | inl e => (inl e, target')
          | inr parsedUrl =>
              match url_parse env identifier with
              | inl e => (inl e, target')
              | inr parsedTargetUrl =>
                  (inr (VBool (urlChecks env (Target.title target') parsedUrl
                                 parsedTargetUrl identifier)),
                   target')
              end
          end
      end
  | _ => (inr (VBool false), target)
  end.

(** ** Sample collaborators and inputs *)

(** A redirect resolver for the examples: it drops one final slash. *)
Definition dropFinalSlash (u : string) : string :=
  match Js.last_char u with
  | Some c => if Ascii.eqb c "/" then Js.drop_last u else u
  | None => u
  end.

(** A left trim for the examples: leading copies of the one-character string
    [char] are removed; [null] is passed on as the empty string. *)
Fixpoint trimLeading (char : string) (s : string) : string :=
  match s with
  | String c s' => if String.eqb (String c EmptyString) char then trimLeading char s' else s
  | EmptyString => EmptyString
  end.

Definition sampleTrim (baseString : option string) (char : string) : error + string :=
  inr (trimLeading char (orEmpty baseString)).

Definition sampleEnv : Env := node dropFinalSlash (fun s => s) sampleTrim.

Definition examplePage : Target.t :=
  Target.mk "A1" "http://example.com/" "Example Domain" "page" None.

Definition docsPage : Target.t :=
  Target.mk "B2" "http://example.com/docs/" "Docs" "page" None.

Definition schemelessPage : Target.t :=
  Target.mk "C3" "example.com" "Example Domain" "page" None.

(** [/Example/], as far as [match] can tell. *)
Definition reExample : RegExp :=
  fun s => if Js.includes s "Example" then Some ["Example"] else None.

(** The state after the events [evs]. *)
Definition add_trace (evs : list event) (st : state) : state :=
  mkState (targetRegistry st) (activeBrowserContextId st) (activeTargetId st)
    (trace st ++ evs).

(** The number of [cri.List] queries in a trace. *)
Definition queries (evs : list event) : nat :=
  length (List.filter
            (fun ev => match ev with Called ListTargets => true | _ => false end)
            evs).

(** The target list never shows a page: empty, or only other types. *)
Definition pageless (remote : Remote) : Prop :=
  forall h, exists l, onList remote h = inr l /\ List.find Target.is_page l = None.

(** One failed attempt of [waitForTargetToBeCreated], and [k] retries after a
    first failed attempt. *)
Definition failedAttempt (e : error) : list event := [Called ListTargets; Logged e].

Fixpoint failedAttempts (e : error) (k : nat) : list event :=
  match k with
  | O => failedAttempt e
  | S k' => failedAttempt e ++ [Slept 100] ++ failedAttempts e k'
  end.

(** A session whose active context is [ctx-1] and active target [A1]. *)
Definition idle : state := mkState ∅ (Some "ctx-1") (Some "A1") [].

Definition workerTarget : Target.t :=
  Target.mk "W9" "http://example.com/sw.js" "worker" "service_worker" None.

Definition staleError : error :=
  RemoteError "Failed to find browser context with id ctx-1"
    (Some (mkResponse (-32602) "Failed to find browser context with id ctx-1")).

Definition refused : error := RemoteError "connect ECONNREFUSED" None.

(** A browser that no longer knows any context: creating a target inside one
    is rejected, creating one in the default context gives [T1]. *)
Definition staleRemote : Remote :=
  mkRemote (fun _ => inr "ctx-2")
    (fun _ _ ctx => match ctx with Some _ => inl staleError | None => inr "T1" end)
    (fun _ _ => inr tt) (fun _ _ => inr tt) (fun _ _ => inr None)
    (fun _ => inr []).

(** A browser out of reach: every request is rejected. *)
Definition refusingRemote : Remote :=
  mkRemote (fun _ => inl refused) (fun _ _ _ => inl refused)
    (fun _ _ => inl refused) (fun _ _ => inl refused) (fun _ _ => inl refused)
    (fun _ => inl refused).

(** A browser whose first [cri.List] is rejected and whose later ones list
    a worker and two pages. *)
Definition flakyRemote : Remote :=
  mkRemote (fun _ => inr "ctx-2") (fun _ _ _ => inr "T1")
    (fun _ _ => inr tt) (fun _ _ => inr tt) (fun _ _ => inr None)
    (fun h => match h with
              | [] => inl refused
              | _ :: _ => inr [workerTarget; examplePage; docsPage]
              end).

(** A browser with no target at all. *)
Definition emptyRemote : Remote :=
  mkRemote (fun _ => inr "ctx-2") (fun _ _ _ => inr "T1")
    (fun _ _ => inr tt) (fun _ _ => inr tt) (fun _ _ => inr None)
    (fun _ => inr []).

(** A browser whose target list is empty at first and shows its targets from
    the second query on. *)
Definition slowRemote : Remote :=
  mkRemote (fun _ => inr "ctx-2") (fun _ _ _ => inr "T1")
    (fun _ _ => inr tt) (fun _ _ => inr tt) (fun _ _ => inr None)
    (fun h => match h with
              | [] => inr []
              | _ :: _ => inr [workerTarget; docsPage; examplePage]
              end).

(** A browser with three pages and a worker. *)
Definition otherPage : Target.t :=
  Target.mk "D4" "http://example.org/" "Other" "page" (Some "ctx-1").

Definition busyRemote : Remote :=
  mkRemote (fun _ => inr "ctx-2") (fun _ _ _ => inr "T1")
    (fun _ _ => inr tt) (fun _ _ => inr tt) (fun _ _ => inr None)
    (fun _ => inr [docsPage; workerTarget; examplePage; otherPage]).

(** A browser with a page at [http://example.com/] titled Example Domain
    and a page whose url has no scheme. *)
Definition mixedRemote : Remote :=
  mkRemote (fun _ => inr "ctx-2") (fun _ _ _ => inr "T1")
    (fun _ _ => inr tt) (fun _ _ => inr tt) (fun _ _ => inr None)
    (fun _ => inr [examplePage; schemelessPage]).

(** A browser whose targets all live in context [ctx-7]. *)
Definition contextRemote : Remote :=
  mkRemote (fun _ => inr "ctx-2") (fun _ _ _ => inr "T1")
    (fun _ _ => inr tt) (fun _ _ => inr tt) (fun _ _ => inr (Some "ctx-7"))
    (fun _ => inr [examplePage]).

(** A browser that creates contexts but no targets. *)
Definition noTargetRemote : Remote :=
  mkRemote (fun _ => inr "ctx-2") (fun _ _ _ => inl refused)
    (fun _ _ => inr tt) (fun _ _ => inr tt) (fun _ _ => inr (Some "ctx-7"))
    (fun _ => inr []).

(** A browser that answers about targets but does not activate them. *)
Definition noActivateRemote : Remote :=
  mkRemote (fun _ => inr "ctx-2") (fun _ _ _ => inr "T1")
    (fun _ _ => inr tt) (fun _ _ => inl refused) (fun _ _ => inr (Some "ctx-7"))
    (fun _ => inr [examplePage]).

(** ** Reading a trace *)

(** The number of attempts [waitForTargetToBeCreated(n)] allows: [n], and
    one when [n] is less than one. *)
Definition attempts (n : Z) : nat := Z.to_nat (Z.max n 1).

(** The events of the attempts of [waitForTargetToBeCreated] that failed
    with [errs] and were each followed by another attempt: the query, the log
    of its failure, the wait. *)
Definition retries (errs : list error) : list event :=
  flat_map (fun e => [Called ListTargets; Logged e; Slept 100]) errs.

(** The failures [errs] are, in order, what the [try] block of
    [waitForTargetToBeCreated] fails with, each one run after the retries
    before it. *)
Definition failures_of (remote : Remote) (st : state) (errs : list error) : Prop :=
  forall i err,
    errs !! i = Some err ->
    fst (findPage remote (add_trace (retries (take i errs)) st)) = inl err.

(** [sub] occurs in [s]. *)
Definition occursIn (sub s : string) : Prop :=
  exists before after, s = before ++ sub ++ after.

(** A browser whose list query fails three ways before it shows a page:
    rejected, then empty, then without page. *)
Definition moodyRemote : Remote :=
  mkRemote (fun _ => inr "ctx-2") (fun _ _ _ => inr "T1")
    (fun _ _ => inr tt) (fun _ _ => inr tt) (fun _ _ => inr None)
    (fun h => match queries h with
              | 0%nat => inl refused
              | 1%nat => inr []
              | 2%nat => inr [workerTarget]
              | _ => inr [workerTarget; otherPage; examplePage]
              end).
(** * Properties *)

(** ** The Node models on sample inputs *)

Example url_parse_http :
  Url.parse "http://example.com/" =
  inr (Url.mkParsed (Some "http:") (Some "example.com") (Some "/")
         "http://example.com/").
Proof. reflexivity. Qed.

Example url_parse_http_no_path :
  Url.parse "http://example.com" =
  inr (Url.mkParsed (Some "http:") (Some "example.com") (Some "/")
         "http://example.com/").
Proof. reflexivity. Qed.

Example url_parse_bare_host :
  Url.parse "example.com" =
  inr (Url.mkParsed None None (Some "example.com") "example.com").
Proof. reflexivity. Qed.

Example url_parse_query :
  Url.parse "https://A.example.com:8080/a/b?x=1#top" =
  inr (Url.mkParsed (Some "https:") (Some "a.example.com:8080") (Some "/a/b")
         "https://a.example.com:8080/a/b?x=1#top").
Proof. reflexivity. Qed.

Example url_parse_about_blank :
  Url.parse "about:blank" =
  inr (Url.mkParsed (Some "about:") (Some "blank") None "about:blank").
Proof. reflexivity. Qed.

Example url_parse_empty :
  Url.parse "" = inr (Url.mkParsed None None None "").
Proof. reflexivity. Qed.

(** Credentials are decoded, and a stray percent sign cannot be. *)
Example url_parse_credentials :
  Url.parse "http://user:pw@Example.com:80/p" =
  inr (Url.mkParsed (Some "http:") (Some "example.com:80") (Some "/p")
         "http://user:pw@example.com:80/p").
Proof. reflexivity. Qed.

Example url_parse_malformed_credentials :
  Url.parse "http://%@x" = inl (URIError "URI malformed").
Proof. reflexivity. Qed.

(** Without the scheme the same characters are a path. *)
Example url_parse_percent_path :
  Url.parse "%@x" = inr (Url.mkParsed None None (Some "%@x") "%@x").
Proof. reflexivity. Qed.

(** The host name is cut at the first character that cannot be in one. *)
Example url_parse_host_cut :
  Url.parse "http://a:1b/p" =
  inr (Url.mkParsed (Some "http:") (Some "a") (Some "/:1b/p") "http://a/:1b/p").
Proof. reflexivity. Qed.

Example path_join_host_root : Path.join "example.com" "/" = "example.com/".
Proof. reflexivity. Qed.

Example path_join_dots : Path.join "a/./b/../c" "//d/" = "a/c/d/".
Proof. reflexivity. Qed.

Example path_join_empty : Path.join "" "" = ".".
Proof. reflexivity. Qed.

(** ** Target registry *)

Lemma is_empty_true (s : string) : Js.is_empty s = true <-> s = EmptyString.
Proof. destruct s; simpl; split; congruence. Qed.

Lemma is_empty_false (s : string) : Js.is_empty s = false <-> s <> EmptyString.
Proof. destruct s; simpl; split; congruence. Qed.

(** Read mode: [register(name)] looks the name up and leaves the registry as
    it is. *)
Lemma register_read (name : option string) (reg : registry) :
  register name None reg = (reg, registry_get name reg).
Proof. destruct name; reflexivity. Qed.

(** Write mode, for a truthy name and a truthy target. *)
Lemma register_write (name id : string) (reg : registry) :
  name <> EmptyString -> id <> EmptyString ->
  register (Some name) (Some id) reg = (<[name := id]> reg, None).
Proof.
  intros Hn Hi. unfold register, present.
  apply is_empty_false in Hn, Hi. rewrite Hn, Hi. reflexivity.
Qed.

(** With a falsy name or target the call is a read, whatever was passed. *)
Lemma register_falsy (name target : option string) (reg : registry) :
  present name && present target = false ->
  register name target reg = (reg, registry_get name reg).
Proof.
  intros H. unfold register.
  destruct name as [n|], target as [t|]; try reflexivity.
  rewrite H. reflexivity.
Qed.

Lemma registry_ok_empty : registry_ok ∅.
Proof. intros name stored H. rewrite lookup_empty in H. discriminate. Qed.

Lemma registry_ok_register name target (reg : registry) :
  registry_ok reg -> registry_ok (fst (register name target reg)).
Proof.
  intros Hok. unfold register.
  destruct name as [n|], target as [t|]; try exact Hok.
  destruct (present (Some n) && present (Some t)) eqn:E; [|exact Hok].
  apply andb_true_iff in E as [_ Ht]. simpl in Ht |- *.
  apply negb_true_iff, is_empty_false in Ht.
  intros k v Hk. destruct (decide (n = k)) as [->|Hne].
  - rewrite lookup_insert_eq in Hk. congruence.
  - rewrite lookup_insert_ne in Hk by exact Hne. eapply Hok, Hk.
Qed.

Lemma registry_ok_unregister name (reg : registry) :
  registry_ok reg -> registry_ok (unregister name reg).
Proof.
  intros Hok k v Hk. unfold unregister in Hk.
  destruct (decide (name = k)) as [->|Hne].
  - rewrite lookup_delete_eq in Hk. discriminate.
  - rewrite lookup_delete_ne in Hk by exact Hne. eapply Hok, Hk.
Qed.

(** Every registry the exported operations can build satisfies the
    invariant. *)
Lemma reachable_ok (reg : registry) : reachable reg -> registry_ok reg.
Proof.
  induction 1.
  - apply registry_ok_empty.
  - by apply registry_ok_register.
  - by apply registry_ok_unregister.
  - apply registry_ok_empty.
Qed.

(** C6, as the claim states it, fails: a write under the empty name is not a
    write.  [register('', 'T1')] takes the read branch, so the next
    [register('')] finds nothing. *)
Lemma register_empty_name_is_not_stored :
  snd (register (Some "") None (fst (register (Some "") (Some "T1") ∅))) <> Some "T1".
Proof. vm_compute. discriminate. Qed.

(** C6 (amended): for every non-empty name and non-empty ids, a read after
    [register(name, id)] returns [id] and a later write wins; after
    [unregister(name)] the read returns [undefined], and [unregister] is
    idempotent and leaves a registry without the name as it was; after
    [clearRegister()] every read returns [undefined]; a read of an unknown
    name returns [undefined], and a read never changes the registry. *)
Theorem registry_read_after_write (reg : registry) (name id id' : string) :
  name <> EmptyString -> id <> EmptyString -> id' <> EmptyString ->
  let write v r := fst (register (Some name) (Some v) r) in
  let read n r := snd (register n None r) in
  read (Some name) (write id reg) = Some id /\
  read (Some name) (write id' (write id reg)) = Some id' /\
  read (Some name) (unregister name (write id reg)) = None /\
  unregister name (unregister name reg) = unregister name reg /\
  (reg !! name = None -> unregister name reg = reg) /\
  (forall n, read n (clearRegister reg) = None) /\
  (forall n, registry_get n reg = None -> read n reg = None) /\
  (forall n, fst (register n None reg) = reg).
Proof.
  intros Hn Hi Hi' write read. subst write read. cbv beta.
  rewrite !register_write by assumption.
  setoid_rewrite register_read. cbn [fst snd registry_get].
  repeat split.
  - apply lookup_insert_eq.
  - apply lookup_insert_eq.
  - unfold unregister. apply lookup_delete_eq.
  - unfold unregister. apply delete_delete_eq.
  - intros Habs. unfold unregister. by apply delete_id.
  - intros [n|]; [apply lookup_empty | reflexivity].
  - intros n Hnone. exact Hnone.
Qed.

Lemma registry_read_after_write_witness :
  snd (register (Some "main") None (fst (register (Some "main") (Some "T1") ∅)))
  = Some "T1".
Proof.
  refine (proj1 (registry_read_after_write ∅ "main" "T1" "T2" _ _ _));
    discriminate.
Defined.

(** ** Identifier matcher *)

(** With every stored id non-empty, [storedTarget && storedTarget ===
    target.id] is [undefined] for an unknown name and a boolean otherwise. *)
Lemma isMatchingTarget_named (reg : registry) (target : Target.t) (name : string) :
  registry_ok reg ->
  isMatchingTarget reg target (IObject (Some name))
  = inr (match reg !! name with
         | Some stored => VBool (String.eqb stored (Target.id target))
         | None => VUndefined
         end).
Proof.
  intros Hok. unfold isMatchingTarget. cbn [identifier_name].
  rewrite register_read. cbn [snd registry_get].
  destruct (reg !! name) as [stored|] eqn:Hget; [|reflexivity].
  apply Hok, is_empty_false in Hget. by rewrite Hget.
Qed.

(** C7: for every registry the module can hold, every target and every
    identifier that carries a [name], [isMatchingTarget] returns [true]
    exactly when the registry maps that name to [target.id]; it never throws,
    and with no such mapping (none at all, or one to another id) it returns a
    falsy value. *)
Theorem isMatchingTarget_iff_registered (reg : registry) (target : Target.t)
    (name : string) :
  reachable reg ->
  (isMatchingTarget reg target (IObject (Some name)) = inr (VBool true)
   <-> reg !! name = Some (Target.id target)) /\
  (exists v, isMatchingTarget reg target (IObject (Some name)) = inr v) /\
  (reg !! name <> Some (Target.id target) ->
   exists v, isMatchingTarget reg target (IObject (Some name)) = inr v /\
             truthy v = false).
Proof.
  intros Hreach. rewrite (isMatchingTarget_named _ _ _ (reachable_ok _ Hreach)).
  destruct (reg !! name) as [stored|].
  - repeat split.
    + intros H. injection H as H. apply String.eqb_eq in H. by subst.
    + intros H. injection H as ->. by rewrite String.eqb_refl.
    + eauto.
    + intros Hdiff. eexists. split; [reflexivity|]. simpl.
      apply String.eqb_neq. congruence.
  - repeat split; try discriminate; eauto.
Qed.

Lemma isMatchingTarget_iff_registered_witness :
  isMatchingTarget (fst (register (Some "main") (Some "A1") ∅)) examplePage
    (IObject (Some "main")) = inr (VBool true).
Proof.
  apply (isMatchingTarget_iff_registered
           (fst (register (Some "main") (Some "A1") ∅)) examplePage "main").
  - apply reach_register, reach_empty.
  - reflexivity.
Defined.

(** A registration left behind by a target that is gone does not match
    another target, and an identifier without [name] matches nothing. *)
Lemma isMatchingTarget_stale :
  isMatchingTarget (fst (register (Some "main") (Some "Z0") ∅)) examplePage
    (IObject (Some "main")) = inr (VBool false) /\
  isMatchingTarget (fst (register (Some "main") (Some "A1") ∅)) examplePage
    (IString "main") = inr VUndefined.
Proof. split; reflexivity. Qed.

(** [isMatchingRegex] throws whenever [url.parse] gives no protocol: either
    the parse itself throws, or [parsedUrl.protocol.concat] is a call on
    [null]. *)
Lemma isMatchingRegex_null_protocol (env : Env) (target : Target.t) (re : RegExp) :
  (forall parsedUrl,
     url_parse env (Target.url target) = inr parsedUrl ->
     Url.protocol parsedUrl = None) ->
  exists e, isMatchingRegex env target (IRegExp re) = inl e.
Proof.
  intros Hp. unfold isMatchingRegex.
  destruct (url_parse env (Target.url target)) as [e|parsedUrl]; [eauto|].
  rewrite (Hp parsedUrl eq_refl).
  destruct (trimCharLeft env _ _); eauto.
Qed.

(** C2, at the failing input: on Node, a target whose url is [example.com]
    (no scheme) makes [isMatchingRegex] throw for every regular expression,
    whatever the repository's helpers do. *)
Theorem isMatchingRegex_throws_without_scheme
    (redirect escape : string -> string)
    (trim : option string -> string -> error + string) (re : RegExp) :
  exists e,
    isMatchingRegex (node redirect escape trim) schemelessPage (IRegExp re) = inl e.
Proof.
  apply isMatchingRegex_null_protocol. intros parsedUrl [= <-]. reflexivity.
Qed.

(** With a helper that returns, the exception is the [TypeError] of the call
    on [null]. *)
Lemma isMatchingRegex_schemeless_TypeError :
  isMatchingRegex sampleEnv schemelessPage (IRegExp reExample)
  = inl (TypeError "Cannot read property 'concat' of null").
Proof. reflexivity. Qed.

(** The sibling [isMatchingUrl] on the same target returns. *)
Lemma isMatchingUrl_schemeless_returns :
  fst (isMatchingUrl sampleEnv schemelessPage (IString "example.org"))
  = inr (VBool false).
Proof. reflexivity. Qed.

(** C3, as the claim states it, fails: with a resolver that drops the final
    slash, the page at [http://example.com/docs/] matches the identifier
    [http://example.com/docs/] (its raw href), while the checks on the
    resolved URL [http://example.com/docs] would not. *)
Lemma isMatchingUrl_compares_raw_url :
  fst (isMatchingUrl sampleEnv docsPage (IString "http://example.com/docs/"))
  <> fst (isMatchingUrl_resolvedFirst sampleEnv docsPage
            (IString "http://example.com/docs/")).
Proof. vm_compute. discriminate. Qed.

(** C3 (amended): [isMatchingUrl] parses the target's URL before it resolves
    it: the three checks are evaluated on the title and on the parse of the
    raw [target.url], and the outcome, value returned or error thrown, is the
    same whatever [handleUrlRedirection] answers. *)
Theorem isMatchingUrl_independent_of_redirect
    (parse : string -> error + Url.parsed) (join : string -> string -> string)
    (redirect redirect' escape : string -> string)
    (trim : option string -> string -> error + string)
    (target : Target.t) (s : string) :
  let env := mkEnv parse join redirect escape trim in
  let env' := mkEnv parse join redirect' escape trim in
  (forall identifier parsedUrl parsedTargetUrl,
     prependHttp env s = inr identifier ->
     parse (Target.url target) = inr parsedUrl ->
     parse identifier = inr parsedTargetUrl ->
     fst (isMatchingUrl env target (IString s))
     = inr (VBool (urlChecks env (Target.title target) parsedUrl
                     parsedTargetUrl identifier))) /\
  fst (isMatchingUrl env target (IString s))
  = fst (isMatchingUrl env' target (IString s)).
Proof.
  cbv zeta. split.
  - intros identifier parsedUrl parsedTargetUrl Hi Hu Ht.
    unfold isMatchingUrl. rewrite Hi. cbn [url_parse]. by rewrite Hu, Ht.
  - unfold isMatchingUrl, prependHttp. cbn [url_parse].
    destruct (Js.is_empty s);
      [|destruct (parse s) as [e|p]; [reflexivity|]; destruct (Url.host p)];
      (destruct (parse (Target.url target)); [reflexivity|]);
      (destruct (parse _); reflexivity).
Qed.

(** C9: the page titled Example Domain at [http://example.com/] matches the
    identifier [example.com]: the identifier has no host, so it becomes
    [http://example.com], whose host is [example.com], and both joined paths
    are [example.com/]. *)
Theorem example_domain_matches (redirect escape : string -> string)
    (trim : option string -> string -> error + string)
    (id type : string) (ctx : option string) :
  let env := node redirect escape trim in
  let target := Target.mk id "http://example.com/" "Example Domain" type ctx in
  let parsed :=
    Url.mkParsed (Some "http:") (Some "example.com") (Some "/")
      "http://example.com/" in
  url_parse env "example.com"
  = inr (Url.mkParsed None None (Some "example.com") "example.com") /\
  prependHttp env "example.com" = inr "http://example.com" /\
  url_parse env "http://example.com" = inr parsed /\
  url_parse env (Target.url target) = inr parsed /\
  path_join env "example.com" (orEmpty (Url.pathname parsed)) = "example.com/" /\
  fst (isMatchingUrl env target (IString "example.com")) = inr (VBool true).
Proof.
  cbv zeta. repeat split.
  unfold isMatchingUrl.
  change (prependHttp (node redirect escape trim) "example.com")
    with (@inr error string "http://example.com").
  cbn [url_parse node Target.url].
  change (Url.parse "http://example.com/")
    with (@inr error Url.parsed
            (Url.mkParsed (Some "http:") (Some "example.com") (Some "/")
               "http://example.com/")).
  change (Url.parse "http://example.com")
    with (@inr error Url.parsed
            (Url.mkParsed (Some "http:") (Some "example.com") (Some "/")
               "http://example.com/")).
  cbn [fst]. unfold urlChecks.
  match goal with
  | |- inr (VBool (?a || ?b || ?c)) = _ =>
      replace b with true by (vm_compute; reflexivity)
  end.
  by rewrite orb_true_r.
Qed.

(** C10, as the claim states it, fails: the identifier [%@x] has no host, so
    it becomes [http://%@x], which [url.parse] refuses with a [URIError]
    (the credentials before the [@] cannot be decoded); [isMatchingUrl]
    throws at that call, before the assignment, and the url of the target is
    not overwritten. *)
Lemma isMatchingUrl_throws_before_overwriting :
  isMatchingUrl sampleEnv examplePage (IString "%@x")
  = (inl (URIError "URI malformed"), examplePage) /\
  Target.url (snd (isMatchingUrl sampleEnv examplePage (IString "%@x")))
  <> handleUrlRedirection sampleEnv (Target.url examplePage).
Proof. split; [reflexivity | vm_compute; discriminate]. Qed.

(** C10 (amended): for a string identifier, whenever [isMatchingUrl] returns
    it returns a boolean and has overwritten [target.url] with
    [handleUrlRedirection(target.url)], whatever the boolean; whenever it
    throws it leaves the target as it was; it returns exactly when
    [url.parse] accepts the identifier, the identifier with its [http://]
    and the url of the target; in every case the other fields of the target
    are as they were. *)
Theorem isMatchingUrl_overwrites_url_on_return (env : Env) (target : Target.t)
    (s : string) :
  let outcome := fst (isMatchingUrl env target (IString s)) in
  let target' := snd (isMatchingUrl env target (IString s)) in
  (forall v, outcome = inr v ->
     (exists b, v = VBool b) /\
     Target.url target' = handleUrlRedirection env (Target.url target)) /\
  (forall e, outcome = inl e -> target' = target) /\
  ((exists v, outcome = inr v) <->
   exists identifier parsedUrl parsedTargetUrl,
     prependHttp env s = inr identifier /\
     url_parse env (Target.url target) = inr parsedUrl /\
     url_parse env identifier = inr parsedTargetUrl) /\
  Target.id target' = Target.id target /\
  Target.title target' = Target.title target /\
  Target.type target' = Target.type target /\
  Target.browserContextId target' = Target.browserContextId target.
Proof.
  cbv zeta. unfold isMatchingUrl.
  destruct (prependHttp env s) as [e|identifier].
  { repeat split; try discriminate; try (intros [v H]; discriminate).
    intros (i & p & q & H & _). discriminate. }
  destruct (url_parse env (Target.url target)) as [e|parsedUrl].
  { repeat split; try discriminate; try (intros [v H]; discriminate).
    intros (i & p & q & _ & H & _). discriminate. }
  destruct (url_parse env identifier) as [e|parsedTargetUrl] eqn:Ht.
  { repeat split; try discriminate; try (intros [v H]; discriminate).
    intros (i & p & q & [= <-] & _ & Hq). congruence. }
  cbn [fst snd]. split; [|split; [|split]].
  - intros v [= <-]. eauto.
  - discriminate.
  - split; eauto 6.
  - repeat split.
Qed.

(** The mutation does not wait for a match: here the call returns [false]. *)
Lemma isMatchingUrl_overwrites_url_without_match :
  isMatchingUrl sampleEnv docsPage (IString "other.org")
  = (inr (VBool false), Target.set_url "http://example.com/docs" docsPage).
Proof. reflexivity. Qed.

(** An identifier that is not a string leaves the target alone. *)
Lemma isMatchingUrl_not_string (env : Env) (target : Target.t) (i : identifier) :
  isString i = false -> isMatchingUrl env target i = (inr (VBool false), target).
Proof. destruct i; simpl; intros; congruence. Qed.

Lemma isMatchingRegex_not_regex (env : Env) (target : Target.t) (i : identifier) :
  isRegex i = false -> isMatchingRegex env target i = inr (VBool false).
Proof. destruct i; simpl; intros; congruence. Qed.

(** ** Browser context manager *)

Lemma add_trace_add (a b : list event) (st : state) :
  add_trace b (add_trace a st) = add_trace (a ++ b) st.
Proof. unfold add_trace. simpl. by rewrite app_assoc. Qed.

Lemma emit_add_trace (ev : event) (st : state) : emit ev st = add_trace [ev] st.
Proof. reflexivity. Qed.

Section CreateTarget.
Variable remote : Remote.
Variables (url : string) (st : state).
Let ctx := activeBrowserContextId st.
Let first := Called (CreateTarget url ctx).
Let second := Called (CreateTarget url None).

(** The request is answered: its [targetId] is returned. *)
Lemma createTarget_resolved (targetId : string) :
  onCreateTarget remote (trace st) url ctx = inr targetId ->
  createTarget remote url st = (inr (Some targetId), add_trace [first] st).
Proof.
  intros H. unfold createTarget, bind, catch, request, get_state, ret. simpl.
  fold ctx. rewrite H. reflexivity.
Qed.

(** Rejected for a stale context and answered on the retry: two requests,
    the second without context, and [undefined] returned, since
    [createdTarget] is then the id string and a string has no [targetId]. *)
Lemma createTarget_fallback (e : error) (targetId : string) :
  onCreateTarget remote (trace st) url ctx = inl e ->
  staleContext e = true ->
  onCreateTarget remote (trace st ++ [first]) url None = inr targetId ->
  createTarget remote url st = (inr None, add_trace [first; second] st).
Proof.
  intros H Hs H2. unfold createTarget, bind, catch, request, get_state, ret.
  simpl. fold ctx. rewrite H, Hs. simpl. fold ctx. fold first. rewrite H2.
  unfold add_trace, emit. simpl. by rewrite <- app_assoc.
Qed.

(** Any other rejection is rethrown as it is, after the one request. *)
Lemma createTarget_rethrows (e : error) :
  onCreateTarget remote (trace st) url ctx = inl e ->
  staleContext e = false ->
  createTarget remote url st = (inl e, add_trace [first] st).
Proof.
  intros H Hs. unfold createTarget, bind, catch, request, get_state, throw.
  simpl. fold ctx. rewrite H, Hs. reflexivity.
Qed.

(** A rejection of the retry is not caught. *)
Lemma createTarget_fallback_rejected (e e2 : error) :
  onCreateTarget remote (trace st) url ctx = inl e ->
  staleContext e = true ->
  onCreateTarget remote (trace st ++ [first]) url None = inl e2 ->
  createTarget remote url st = (inl e2, add_trace [first; second] st).
Proof.
  intros H Hs H2. unfold createTarget, bind, catch, request, get_state, ret.
  simpl. fold ctx. rewrite H, Hs. simpl. fold ctx. fold first. rewrite H2.
  unfold add_trace, emit. simpl. by rewrite <- app_assoc.
Qed.

End CreateTarget.

(** The two messages the handler looks for, and one it does not. *)
Lemma staleContext_samples :
  staleContext staleError = true /\
  staleContext (RemoteError "x" (Some (mkResponse (-32602) "Invalid browserContextId"))) = true /\
  staleContext (RemoteError "x" (Some (mkResponse (-32000) "Not allowed"))) = false /\
  staleContext (RemoteError "x" (Some (mkResponse (-32000) ""))) = false /\
  staleContext refused = false /\
  staleContext (TypeError "browserContextId") = false.
Proof. repeat split. Qed.

(** C1, at the failing input: the browser rejects the creation inside the
    stale context [ctx-1] and answers the retry with target [T1]; the handler
    sends exactly the two requests, the second without a context, and then
    returns [undefined] instead of [T1]. *)
Theorem createTarget_fallback_returns_undefined :
  onCreateTarget staleRemote [] "http://example.com/" (Some "ctx-1") = inl staleError /\
  onCreateTarget staleRemote
    [Called (CreateTarget "http://example.com/" (Some "ctx-1"))]
    "http://example.com/" None = inr "T1" /\
  createTarget staleRemote "http://example.com/" idle
  = (inr None,
     add_trace [Called (CreateTarget "http://example.com/" (Some "ctx-1"));
                Called (CreateTarget "http://example.com/" None)] idle).
Proof. repeat split. Qed.

(** Without the rejection the same request returns the id. *)
Lemma createTarget_returns_id :
  fst (createTarget emptyRemote "http://example.com/" idle) = inr (Some "T1").
Proof. reflexivity. Qed.

(** ** Target discovery *)

(** The defining equation of [waitForTargetToBeCreated], as the source reads:
    the [try] block, then in [catch] the log, the test [n < 2], the delay and
    the recursive call. *)
Lemma waitForTargetToBeCreated_eq (remote : Remote) (n : Z) (st : state) :
  waitForTargetToBeCreated remote n st =
  match findPage remote st with
  | (inr target, st1) => (inr target, st1)
  | (inl err, st1) =>
      if Z_lt_dec n 2 then (inl err, emit (Logged err) st1)
      else waitForTargetToBeCreated remote (n - 1)
             (emit (Slept 100) (emit (Logged err) st1))
  end.
Proof.
  simp waitForTargetToBeCreated.
  destruct (findPage remote st) as [[err|target] st1]; simpl; [|reflexivity].
  destruct (Z_lt_dec n 2); reflexivity.
Qed.

Lemma findPage_rejected (remote : Remote) (st : state) (err : error) :
  onList remote (trace st) = inl err ->
  findPage remote st = (inl err, add_trace [Called ListTargets] st).
Proof. intros H. unfold findPage, bind, request. rewrite H. reflexivity. Qed.

Lemma findPage_none (remote : Remote) (st : state) (l : list Target.t) :
  onList remote (trace st) = inr l ->
  List.find Target.is_page l = None ->
  findPage remote st = (inl noTargets, add_trace [Called ListTargets] st).
Proof.
  intros H Hf. unfold findPage, bind, request. rewrite H.
  destruct l; [reflexivity|]. rewrite Hf. reflexivity.
Qed.

Lemma findPage_some (remote : Remote) (st : state) (l : list Target.t)
    (target : Target.t) :
  onList remote (trace st) = inr l ->
  List.find Target.is_page l = Some target ->
  findPage remote st = (inr target, add_trace [Called ListTargets] st).
Proof.
  intros H Hf. unfold findPage, bind, request. rewrite H.
  destruct l; [discriminate|]. rewrite Hf. reflexivity.
Qed.

(** A failed attempt with attempts left: log, wait 100ms, try again with
    one attempt less. *)
Lemma waitForTargetToBeCreated_retry (remote : Remote) (n : Z) (st : state)
    (err : error) :
  findPage remote st = (inl err, add_trace [Called ListTargets] st) ->
  2 <= n ->
  waitForTargetToBeCreated remote n st =
  waitForTargetToBeCreated remote (n - 1)
    (add_trace (failedAttempt err ++ [Slept 100]) st).
Proof.
  intros H Hn. rewrite waitForTargetToBeCreated_eq, H.
  destruct (Z_lt_dec n 2); [lia|].
  rewrite !emit_add_trace, !add_trace_add. reflexivity.
Qed.

(** A failed last attempt: log and rethrow. *)
Lemma waitForTargetToBeCreated_last (remote : Remote) (n : Z) (st : state)
    (err : error) :
  findPage remote st = (inl err, add_trace [Called ListTargets] st) ->
  n < 2 ->
  waitForTargetToBeCreated remote n st = (inl err, add_trace (failedAttempt err) st).
Proof.
  intros H Hn. rewrite waitForTargetToBeCreated_eq, H.
  destruct (Z_lt_dec n 2); [|lia].
  rewrite !emit_add_trace, !add_trace_add. reflexivity.
Qed.

(** Against a list that never shows a page, [k + 1] attempts are all made,
    each but the last followed by the delay, and the failure is rethrown. *)
Lemma waitForTargetToBeCreated_exhausts (remote : Remote) (k : nat) :
  pageless remote ->
  forall st,
    waitForTargetToBeCreated remote (Z.of_nat (S k)) st
    = (inl noTargets, add_trace (failedAttempts noTargets k) st).
Proof.
  intros Hp. induction k as [|k IH]; intros st.
  - destruct (Hp (trace st)) as (l & Hl & Hf).
    apply waitForTargetToBeCreated_last; [by eapply findPage_none | lia].
  - destruct (Hp (trace st)) as (l & Hl & Hf).
    rewrite (waitForTargetToBeCreated_retry remote _ st noTargets);
      [|by eapply findPage_none | lia].
    replace (Z.of_nat (S (S k)) - 1) with (Z.of_nat (S k)) by lia.
    rewrite IH, add_trace_add. cbn [failedAttempts].
    by rewrite <- !app_assoc.
Qed.

Lemma queries_failedAttempts (e : error) (k : nat) :
  queries (failedAttempts e k) = S k.
Proof.
  induction k as [|k IH]; [reflexivity|].
  unfold queries in *. cbn. by rewrite IH.
Qed.

Lemma queries_app (a b : list event) : queries (a ++ b) = (queries a + queries b)%nat.
Proof. unfold queries. by rewrite List.filter_app, length_app. Qed.

(** C4: [waitForTargetToBeCreated(3)] against a target list that never shows
    a page queries the list exactly three times, waits 100ms between
    consecutive queries, and rethrows the failure; when the second query
    shows a page, that page is returned after two queries. *)
Theorem waitForTargetToBeCreated_three_attempts (remote : Remote) (st : state) :
  (pageless remote ->
   exists st',
     waitForTargetToBeCreated remote 3 st = (inl noTargets, st') /\
     st' = add_trace
             [Called ListTargets; Logged noTargets; Slept 100;
              Called ListTargets; Logged noTargets; Slept 100;
              Called ListTargets; Logged noTargets] st /\
     queries (trace st') = (queries (trace st) + 3)%nat) /\
  (forall first second target,
     onList remote (trace st) = inr first ->
     List.find Target.is_page first = None ->
     onList remote (trace st ++ [Called ListTargets; Logged noTargets; Slept 100])
     = inr second ->
     List.find Target.is_page second = Some target ->
     waitForTargetToBeCreated remote 3 st
     = (inr target,
        add_trace [Called ListTargets; Logged noTargets; Slept 100;
                   Called ListTargets] st)).
Proof.
  split.
  - intros Hp. eexists. split; [|split].
    + exact (waitForTargetToBeCreated_exhausts remote 2 Hp st).
    + reflexivity.
    + cbn [add_trace trace]. rewrite queries_app. reflexivity.
  - intros first second target H1 Hf1 H2 Hf2.
    rewrite (waitForTargetToBeCreated_retry remote 3 st noTargets);
      [|by eapply findPage_none | lia].
    rewrite waitForTargetToBeCreated_eq.
    erewrite findPage_some; [|exact H2|exact Hf2].
    by rewrite add_trace_add.
Qed.

Lemma emptyRemote_pageless : pageless emptyRemote.
Proof. intros h. exists []. split; reflexivity. Qed.

Lemma waitForTargetToBeCreated_three_attempts_witness :
  fst (waitForTargetToBeCreated emptyRemote 3 idle) = inl noTargets /\
  queries (trace (snd (waitForTargetToBeCreated emptyRemote 3 idle))) = 3%nat /\
  fst (waitForTargetToBeCreated slowRemote 3 idle) = inr docsPage /\
  queries (trace (snd (waitForTargetToBeCreated slowRemote 3 idle))) = 2%nat.
Proof.
  destruct (proj1 (waitForTargetToBeCreated_three_attempts emptyRemote idle)
              emptyRemote_pageless) as (st' & Hrun & Hst & Hq).
  rewrite Hrun. cbn [fst snd]. rewrite Hq.
  rewrite (proj2 (waitForTargetToBeCreated_three_attempts slowRemote idle)
             [] [workerTarget; docsPage; examplePage] docsPage
             eq_refl eq_refl eq_refl eq_refl).
  repeat split.
Defined.

(** C5, as the claim states it, fails: the first [cri.List] of
    [waitForTargetToBeCreated(3)] is rejected with a connection error; the
    handler logs it, waits and asks again, and returns the page of the second
    answer, so the caller never sees the error. *)
Lemma waitForTargetToBeCreated_swallows_list_error :
  onList flakyRemote (trace idle) = inl refused /\
  waitForTargetToBeCreated flakyRemote 3 idle
  = (inr examplePage,
     add_trace [Called ListTargets; Logged refused; Slept 100; Called ListTargets]
       idle).
Proof.
  split; [reflexivity|].
  rewrite (waitForTargetToBeCreated_retry flakyRemote 3 idle refused);
    [|by apply findPage_rejected | lia].
  rewrite waitForTargetToBeCreated_eq. reflexivity.
Qed.

Section Propagation.
Variable remote : Remote.
Variable st : state.
Variable err : error.

Lemma getBrowserContextIdForTarget_rejected (targetId : string) :
  onGetTargetInfo remote (trace st) targetId = inl err ->
  getBrowserContextIdForTarget remote targetId st
  = (inl err, add_trace [Called (GetTargetInfo targetId)] st).
Proof. intros H. unfold getBrowserContextIdForTarget, request. by rewrite H. Qed.

Lemma createBrowserContext_rejected (url : string) :
  onCreateBrowserContext remote (trace st) = inl err ->
  createBrowserContext remote url st
  = (inl err, add_trace [Called CreateBrowserContext] st).
Proof. intros H. unfold createBrowserContext, bind, request. by rewrite H. Qed.

Lemma closeBrowserContext_rejected (targetId : string) :
  onGetTargetInfo remote (trace st) targetId = inl err ->
  closeBrowserContext remote targetId st
  = (inl err, add_trace [Called (GetTargetInfo targetId)] st).
Proof.
  intros H. unfold closeBrowserContext, bind.
  by rewrite getBrowserContextIdForTarget_rejected.
Qed.

Lemma closeBrowserContext_dispose_rejected (targetId : string)
    (browserContextId : option string) :
  onGetTargetInfo remote (trace st) targetId = inr browserContextId ->
  onDisposeBrowserContext remote (trace st ++ [Called (GetTargetInfo targetId)])
    browserContextId = inl err ->
  closeBrowserContext remote targetId st
  = (inl err,
     add_trace [Called (GetTargetInfo targetId);
                Called (DisposeBrowserContext browserContextId)] st).
Proof.
  intros H1 H2.
  unfold closeBrowserContext, getBrowserContextIdForTarget, bind, request.
  rewrite H1. cbn [emit trace]. rewrite H2.
  by rewrite !emit_add_trace, add_trace_add.
Qed.

Lemma switchBrowserContext_rejected (targetId : string) :
  onGetTargetInfo remote (trace st) targetId = inl err ->
  switchBrowserContext remote targetId st
  = (inl err, add_trace [Called (GetTargetInfo targetId)] st).
Proof.
  intros H. unfold switchBrowserContext, bind.
  by rewrite getBrowserContextIdForTarget_rejected.
Qed.

(** The context of the target is adopted before the activation is asked
    for: it stays adopted when the activation is rejected. *)
Lemma switchBrowserContext_activate_rejected (targetId : string)
    (browserContextId : option string) :
  onGetTargetInfo remote (trace st) targetId = inr browserContextId ->
  onActivateTarget remote (trace st ++ [Called (GetTargetInfo targetId)]) targetId
  = inl err ->
  switchBrowserContext remote targetId st
  = (inl err,
     set_activeBrowserContextId browserContextId
       (add_trace [Called (GetTargetInfo targetId);
                   Called (ActivateTarget targetId)] st)).
Proof.
  intros H1 H2.
  unfold switchBrowserContext, getBrowserContextIdForTarget, bind, request, modify.
  rewrite H1. cbn [emit trace set_activeBrowserContextId]. rewrite H2.
  unfold add_trace, emit, set_activeBrowserContextId. cbn.
  by rewrite <- app_assoc.
Qed.

Lemma getCriTargets_rejected (env : Env) (identifier : identifier) :
  onList remote (trace st) = inl err ->
  getCriTargets remote env identifier st
  = (inl err, add_trace [Called ListTargets] st).
Proof. intros H. unfold getCriTargets, bind, request. by rewrite H. Qed.

End Propagation.

(** C5 (amended): an error of the remote connection is passed on unchanged,
    with no further request, by [createTarget] (unless it is the stale-context
    rejection of its first request; a rejection of the retry is passed on),
    [createBrowserContext], [getBrowserContextIdForTarget],
    [closeBrowserContext], [switchBrowserContext] and [getCriTargets].
    [waitForTargetToBeCreated] treats a rejected target-list query like an
    empty list: with [n < 2] it logs the error and rethrows it unchanged; with
    [n >= 2] it logs it, waits 100ms and tries again with [n - 1]. *)
Theorem remote_errors_propagate (remote : Remote) (env : Env) (st : state)
    (err : error) :
  let ctx := activeBrowserContextId st in
  (forall url,
     onCreateTarget remote (trace st) url ctx = inl err ->
     staleContext err = false ->
     createTarget remote url st
     = (inl err, add_trace [Called (CreateTarget url ctx)] st)) /\
  (forall url stale,
     onCreateTarget remote (trace st) url ctx = inl stale ->
     staleContext stale = true ->
     onCreateTarget remote (trace st ++ [Called (CreateTarget url ctx)]) url None
     = inl err ->
     createTarget remote url st
     = (inl err,
        add_trace [Called (CreateTarget url ctx); Called (CreateTarget url None)] st)) /\
  (forall url,
     onCreateBrowserContext remote (trace st) = inl err ->
     createBrowserContext remote url st
     = (inl err, add_trace [Called CreateBrowserContext] st)) /\
  (forall targetId,
     onGetTargetInfo remote (trace st) targetId = inl err ->
     getBrowserContextIdForTarget remote targetId st
     = (inl err, add_trace [Called (GetTargetInfo targetId)] st) /\
     closeBrowserContext remote targetId st
     = (inl err, add_trace [Called (GetTargetInfo targetId)] st) /\
     switchBrowserContext remote targetId st
     = (inl err, add_trace [Called (GetTargetInfo targetId)] st)) /\
  (forall targetId browserContextId,
     onGetTargetInfo remote (trace st) targetId = inr browserContextId ->
     onDisposeBrowserContext remote (trace st ++ [Called (GetTargetInfo targetId)])
       browserContextId = inl err ->
     fst (closeBrowserContext remote targetId st) = inl err) /\
  (forall targetId browserContextId,
     onGetTargetInfo remote (trace st) targetId = inr browserContextId ->
     onActivateTarget remote (trace st ++ [Called (GetTargetInfo targetId)]) targetId
     = inl err ->
     fst (switchBrowserContext remote targetId st) = inl err) /\
  (forall identifier,
     onList remote (trace st) = inl err ->
     getCriTargets remote env identifier st
     = (inl err, add_trace [Called ListTargets] st)) /\
  (forall n,
     onList remote (trace st) = inl err ->
     (n < 2 ->
      waitForTargetToBeCreated remote n st
      = (inl err, add_trace [Called ListTargets; Logged err] st)) /\
     (2 <= n ->
      waitForTargetToBeCreated remote n st
      = waitForTargetToBeCreated remote (n - 1)
          (add_trace [Called ListTargets; Logged err; Slept 100] st))).
Proof.
  cbv zeta. repeat apply conj.
  - intros url. apply createTarget_rethrows.
  - intros url stale. apply createTarget_fallback_rejected.
  - intros url. by apply createBrowserContext_rejected.
  - intros targetId H. repeat split.
    + by apply getBrowserContextIdForTarget_rejected.
    + by apply closeBrowserContext_rejected.
    + by apply switchBrowserContext_rejected.
  - intros targetId c H1 H2.
    by rewrite (closeBrowserContext_dispose_rejected remote st err targetId c).
  - intros targetId c H1 H2.
    by rewrite (switchBrowserContext_activate_rejected remote st err targetId c).
  - intros identifier. by apply getCriTargets_rejected.
  - intros n H. split; intros Hn.
    + apply waitForTargetToBeCreated_last; [by apply findPage_rejected | lia].
    + apply (waitForTargetToBeCreated_retry remote n st err);
        [by apply findPage_rejected | lia].
Qed.

Lemma remote_errors_propagate_witness :
  fst (createTarget refusingRemote "http://example.com/" idle) = inl refused /\
  fst (createBrowserContext refusingRemote "http://example.com/" idle) = inl refused /\
  fst (closeBrowserContext refusingRemote "A1" idle) = inl refused /\
  fst (getCriTargets refusingRemote sampleEnv IUndefined idle) = inl refused /\
  fst (waitForTargetToBeCreated refusingRemote 1 idle) = inl refused.
Proof.
  destruct (remote_errors_propagate refusingRemote sampleEnv idle refused)
    as (Hcreate & _ & Hcontext & Hinfo & _ & _ & Hlist & Hwait).
  rewrite (Hcreate "http://example.com/" eq_refl eq_refl).
  rewrite (Hcontext "http://example.com/" eq_refl).
  destruct (Hinfo "A1" eq_refl) as (_ & -> & _).
  rewrite (Hlist IUndefined eq_refl).
  rewrite (proj1 (Hwait 1 eq_refl)) by lia.
  repeat split.
Defined.

(** ** getCriTargets without an identifier *)

Lemma filter_filter_andb {A} (f g : A -> bool) (l : list A) :
  List.filter g (List.filter f l) = List.filter (fun x => f x && g x) l.
Proof.
  induction l as [|x l IH]; [reflexivity|]. simpl.
  destruct (f x); simpl; [destruct (g x)|]; by rewrite IH.
Qed.

(** [Array.prototype.filter] keeps the order of the array it filters. *)
Lemma filter_sublist_of {A} (f : A -> bool) (l : list A) :
  sublist (List.filter f l) l.
Proof.
  induction l as [|x l IH]; simpl; [constructor|].
  destruct (f x); by constructor.
Qed.

Lemma elem_of_filter_bool {A} (f : A -> bool) (l : list A) (x : A) :
  x ∈ List.filter f l <-> x ∈ l /\ f x = true.
Proof. rewrite !list_elem_of_In. apply filter_In. Qed.

Lemma is_page_type (t : Target.t) : Target.is_page t = true <-> Target.type t = "page".
Proof. apply String.eqb_eq. Qed.

(** C8: with no identifier, [getCriTargets] sends the one list query and
    answers with the pages split by id against the active target id:
    [matching] holds exactly the pages whose id is the active one, [others]
    exactly the other pages, both in the order of the list; the answer is the
    same whatever the matcher's collaborators and the registry are. *)
Theorem getCriTargets_without_identifier (remote : Remote) (env : Env)
    (st : state) (targets : list Target.t) :
  onList remote (trace st) = inr targets ->
  exists response,
    getCriTargets remote env IUndefined st
    = (inr response, add_trace [Called ListTargets] st) /\
    (forall t, t ∈ matching response <->
               t ∈ targets /\ Target.type t = "page" /\
               Some (Target.id t) = activeTargetId st) /\
    (forall t, t ∈ others response <->
               t ∈ targets /\ Target.type t = "page" /\
               Some (Target.id t) <> activeTargetId st) /\
    sublist (matching response) targets /\
    sublist (others response) targets /\
    (forall env' reg',
       fst (getCriTargets remote env' IUndefined
              (mkState reg' (activeBrowserContextId st) (activeTargetId st) (trace st)))
       = inr response).
Proof.
  intros H. eexists. split; [|repeat apply conj].
  - unfold getCriTargets, bind, request, get_state, ret. rewrite H.
    cbn [falsy emit activeTargetId]. rewrite !filter_filter_andb. reflexivity.
  - intros t. cbn [matching]. rewrite elem_of_filter_bool, andb_true_iff.
    rewrite is_page_type, bool_decide_eq_true. tauto.
  - intros t. cbn [others]. rewrite elem_of_filter_bool, andb_true_iff.
    rewrite is_page_type, negb_true_iff, bool_decide_eq_false. tauto.
  - apply filter_sublist_of.
  - apply filter_sublist_of.
  - intros env' reg'.
    unfold getCriTargets, bind, request, get_state, ret. cbn [trace]. rewrite H.
    cbn [falsy emit activeTargetId fst]. rewrite !filter_filter_andb. reflexivity.
Qed.

Lemma getCriTargets_without_identifier_witness :
  exists response,
    getCriTargets busyRemote sampleEnv IUndefined idle
    = (inr response, add_trace [Called ListTargets] idle) /\
    examplePage ∈ matching response /\
    docsPage ∈ others response /\
    workerTarget ∉ others response.
Proof.
  destruct (getCriTargets_without_identifier busyRemote sampleEnv idle
              [docsPage; workerTarget; examplePage; otherPage] eq_refl)
    as (response & Hrun & Hmatching & Hothers & _).
  exists response. split; [exact Hrun|]. repeat apply conj.
  - apply Hmatching. repeat split. apply list_elem_of_In. simpl. tauto.
  - apply Hothers. repeat split; [|discriminate].
    apply list_elem_of_In. simpl. tauto.
  - intros Hin. apply Hothers in Hin as (_ & Htype & _). discriminate.
Defined.

(** The partition of that list, computed. *)
Lemma getCriTargets_without_identifier_sample :
  fst (getCriTargets busyRemote sampleEnv IUndefined idle)
  = inr (mkPartition [examplePage] [docsPage; otherPage]).
Proof. reflexivity. Qed.

(** With an identifier the matcher runs on every page, and the targets come
    back with the url [isMatchingUrl] left in them. *)
Lemma getCriTargets_with_identifier :
  fst (getCriTargets busyRemote sampleEnv (IString "example.com") idle)
  = inr (mkPartition
           [Target.set_url "http://example.com" examplePage]
           [Target.set_url "http://example.com/docs" docsPage;
            Target.set_url "http://example.org" otherPage]).
Proof. vm_compute. reflexivity. Qed.

(** The empty string is falsy: it takes the path without identifier. *)
Lemma getCriTargets_empty_string (remote : Remote) (env : Env) (st : state) :
  getCriTargets remote env (IString "") st = getCriTargets remote env IUndefined st.
Proof. reflexivity. Qed.

(** ** getCriTargets with a string identifier *)

Section StringIdentifier.
Variable env : Env.
Variables s identifier : string.
Variable parsedTargetUrl : Url.parsed.
Variable parsedOf : string -> Url.parsed.
Hypothesis prepended : prependHttp env s = inr identifier.
Hypothesis identifier_parsed : url_parse env identifier = inr parsedTargetUrl.

Let matches (t : Target.t) : bool :=
  urlChecks env (Target.title t) (parsedOf (Target.url t)) parsedTargetUrl
    identifier.
Let resolved (t : Target.t) : Target.t :=
  Target.set_url (handleUrlRedirection env (Target.url t)) t.
Let accepted (t : Target.t) : Prop :=
  url_parse env (Target.url t) = inr (parsedOf (Target.url t)).

(** For a string, only the URL match decides: the regex match answers
    [false] and the name match [undefined]. *)
Lemma classify_string (reg : registry) (response : partition) (t : Target.t) :
  accepted t ->
  classify env (IString s) reg response t
  = inr (if matches t
         then mkPartition (matching response ++ [resolved t]) (others response)
         else mkPartition (matching response) (others response ++ [resolved t])).
Proof.
  intros Ht. unfold classify, isMatchingUrl.
  rewrite prepended, Ht, identifier_parsed.
  cbn [truthy Target.title Target.set_url].
  change (urlChecks env (Target.title t) _ _ _) with (matches t).
  destruct (matches t); reflexivity.
Qed.

Lemma classifyAll_string (reg : registry) (pages : list Target.t) :
  Forall accepted pages ->
  forall response,
    classifyAll env (IString s) reg response pages
    = inr (mkPartition
             (matching response ++ map resolved (List.filter matches pages))
             (others response
              ++ map resolved (List.filter (fun t => negb (matches t)) pages))).
Proof.
  induction 1 as [|t pages Ht Hpages IH]; intros response.
  - simpl. rewrite !app_nil_r. by destruct response.
  - cbn [classifyAll]. rewrite (classify_string _ _ _ Ht), IH. cbn [List.filter].
    destruct (matches t); cbn [negb matching others map];
      by rewrite <- ?app_assoc.
Qed.

(** X12: take a non-empty string identifier that [url.parse] accepts, as it
    is and as [prependHttp] leaves it, and a list whose pages all have a url
    that [url.parse] accepts.  Then [getCriTargets] resolves; the pages are
    split by the URL match alone, in list order, and every page comes back,
    in [others] as well as in [matching], carrying the url
    [handleUrlRedirection] answered for it. *)
Lemma getCriTargets_string (remote : Remote) (st : state)
    (targets : list Target.t) :
  s <> EmptyString ->
  onList remote (trace st) = inr targets ->
  (forall t, t ∈ targets -> Target.type t = "page" -> accepted t) ->
  getCriTargets remote env (IString s) st
  = (inr (mkPartition
            (map resolved (List.filter matches (List.filter Target.is_page targets)))
            (map resolved
               (List.filter (fun t => negb (matches t))
                  (List.filter Target.is_page targets)))),
     add_trace [Called ListTargets] st).
Proof.
  intros Hs H Hacc. unfold getCriTargets, bind, request, get_state, ret.
  rewrite H. cbn [falsy]. apply is_empty_false in Hs. rewrite Hs.
  cbn [emit targetRegistry]. rewrite classifyAll_string; [reflexivity|].
  apply Forall_forall. intros t Hin.
  apply elem_of_filter_bool in Hin as [Hin Hpage].
  apply Hacc; [exact Hin | by apply is_page_type].
Qed.

End StringIdentifier.

(** ** path.join never answers the empty string

    So on Node the fallback in [identifierPath || identifier] is never
    taken. *)

Lemma is_empty_app (a b : string) :
  Js.is_empty (a ++ b) = Js.is_empty a && Js.is_empty b.
Proof. destruct a; reflexivity. Qed.

Lemma normalize_nonempty (p : string) : Js.is_empty (Path.normalize p) = false.
Proof.
  unfold Path.normalize.
  destruct (Js.is_empty p); [reflexivity|].
  destruct (Js.is_empty (Path.normalizeString _ _)) eqn:E.
  - destruct (Js.startsWith _ _); [reflexivity|].
    destruct (Js.last_char p) as [c|]; [destruct (Ascii.eqb c _)|]; reflexivity.
  - destruct (Js.startsWith _ _); [reflexivity|].
    destruct (Js.last_char p) as [c|]; [destruct (Ascii.eqb c _)|];
      rewrite ?is_empty_app, E; reflexivity.
Qed.

Lemma join_nonempty (a b : string) : Js.is_empty (Path.join a b) = false.
Proof.
  unfold Path.join.
  destruct (Js.is_empty a), (Js.is_empty b);
    [reflexivity | apply normalize_nonempty ..].
Qed.

(** On Node the second check of [isMatchingUrl] compares the two joined
    paths. *)
Lemma urlChecks_join (parse : string -> error + Url.parsed)
    (redirect escape : string -> string)
    (trim : option string -> string -> error + string)
    (title : string) (parsedUrl parsedTargetUrl : Url.parsed) (identifier : string) :
  urlChecks (mkEnv parse Path.join redirect escape trim) title parsedUrl
    parsedTargetUrl identifier
  = String.eqb title (escape identifier)
    || String.eqb
         (Path.join (orEmpty (Url.host parsedUrl)) (orEmpty (Url.pathname parsedUrl)))
         (Path.join (orEmpty (Url.host parsedTargetUrl))
            (orEmpty (Url.pathname parsedTargetUrl)))
    || String.eqb (Url.href parsedUrl) identifier.
Proof.
  unfold urlChecks. cbn [path_join escapeHtml].
  by rewrite join_nonempty.
Qed.

(** * Further properties of the handler *)

(** ** Registry *)

(** X1: [register] and [unregister] act on one name only: whatever is passed
    as target, a read of any other name answers the same before and after. *)
Theorem registry_other_names_untouched (reg : registry)
    (name other : string) (target : option string) :
  name <> other ->
  snd (register (Some other) None (fst (register (Some name) target reg)))
  = snd (register (Some other) None reg) /\
  snd (register (Some other) None (unregister name reg))
  = snd (register (Some other) None reg).
Proof.
  intros Hne. rewrite !register_read. cbn [snd registry_get]. split.
  - unfold register. destruct target as [t|]; [|reflexivity].
    destruct (present (Some name) && present (Some t)); [|reflexivity].
    cbn [fst]. by apply lookup_insert_ne.
  - unfold unregister. by apply lookup_delete_ne.
Qed.

Lemma registry_other_names_untouched_witness :
  snd (register (Some "popup") None
         (fst (register (Some "main") (Some "A1")
                 (fst (register (Some "popup") (Some "B2") ∅)))))
  = Some "B2".
Proof.
  rewrite (proj1 (registry_other_names_untouched
                    (fst (register (Some "popup") (Some "B2") ∅))
                    "main" "popup" (Some "A1") ltac:(discriminate))).
  reflexivity.
Defined.

(** X2: in every registry the exported operations can build, no entry has
    an empty name or an empty id. *)
Theorem reachable_entries_truthy (reg : registry) (name stored : string) :
  reachable reg ->
  reg !! name = Some stored ->
  name <> EmptyString /\ stored <> EmptyString.
Proof.
  intros Hreach. revert name stored.
  induction Hreach as [|n t reg Hreach IH|n reg Hreach IH|reg Hreach IH];
    intros name stored Hget.
  - rewrite lookup_empty in Hget. discriminate.
  - unfold register in Hget.
    destruct n as [n|], t as [t|]; try (by apply IH).
    destruct (present (Some n) && present (Some t)) eqn:E; [|by apply IH].
    apply andb_true_iff in E as [Hn Ht]. simpl in Hn, Ht, Hget.
    apply negb_true_iff, is_empty_false in Hn, Ht.
    destruct (decide (n = name)) as [->|Hne].
    + rewrite lookup_insert_eq in Hget. by injection Hget as <-.
    + rewrite lookup_insert_ne in Hget by exact Hne. by apply IH.
  - unfold unregister in Hget.
    destruct (decide (n = name)) as [->|Hne].
    + rewrite lookup_delete_eq in Hget. discriminate.
    + rewrite lookup_delete_ne in Hget by exact Hne. by apply IH.
  - unfold clearRegister in Hget. rewrite lookup_empty in Hget. discriminate.
Qed.

Lemma reachable_entries_truthy_witness :
  "main" <> EmptyString /\ "A1" <> EmptyString.
Proof.
  apply (reachable_entries_truthy
           (fst (register (Some "main") (Some "A1")
                   (fst (register (Some "") (Some "Z0") ∅))))
           "main" "A1").
  - apply reach_register, reach_register, reach_empty.
  - reflexivity.
Defined.

(** X3: registering a name that was absent and unregistering it again gives
    the registry back; unregistering first makes no difference to a write. *)
Theorem register_unregister_round_trip (reg : registry) (name id : string) :
  name <> EmptyString -> id <> EmptyString ->
  (reg !! name = None ->
   unregister name (fst (register (Some name) (Some id) reg)) = reg) /\
  fst (register (Some name) (Some id) (unregister name reg))
  = fst (register (Some name) (Some id) reg).
Proof.
  intros Hn Hi. rewrite !register_write by assumption. cbn [fst].
  unfold unregister. split.
  - intros Habs. rewrite delete_insert_eq. by apply delete_id.
  - apply insert_delete_eq.
Qed.

Lemma register_unregister_round_trip_witness :
  unregister "main"
    (fst (register (Some "main") (Some "A1")
            (fst (register (Some "popup") (Some "B2") ∅))))
  = fst (register (Some "popup") (Some "B2") ∅).
Proof.
  apply (register_unregister_round_trip
           (fst (register (Some "popup") (Some "B2") ∅)) "main" "A1");
    [discriminate | discriminate | reflexivity].
Defined.

(** X4: [register] never removes an entry: a name that had an id before the
    call, whatever the arguments, has one after it. *)
Theorem register_never_removes (reg : registry) (name target : option string)
    (n : string) :
  is_Some (reg !! n) ->
  is_Some (fst (register name target reg) !! n).
Proof.
  intros Hin. unfold register.
  destruct name as [k|], target as [t|]; try exact Hin.
  destruct (present (Some k) && present (Some t)); [|exact Hin].
  cbn [fst]. destruct (decide (k = n)) as [->|Hne].
  - rewrite lookup_insert_eq. eauto.
  - by rewrite lookup_insert_ne.
Qed.

Lemma register_never_removes_witness :
  is_Some (fst (register (Some "main") (Some "")
                  (fst (register (Some "main") (Some "A1") ∅))) !! "main").
Proof.
  apply register_never_removes. exists "A1". reflexivity.
Defined.

(** X5: a name designates at most one target id: if [isMatchingTarget]
    answers [true] for two targets under the same identifier, the two have the
    same id. *)
Theorem isMatchingTarget_unique (reg : registry) (t1 t2 : Target.t)
    (i : identifier) :
  isMatchingTarget reg t1 i = inr (VBool true) ->
  isMatchingTarget reg t2 i = inr (VBool true) ->
  Target.id t1 = Target.id t2.
Proof.
  unfold isMatchingTarget.
  destruct (identifier_name i) as [e|name]; [discriminate|].
  rewrite register_read. cbn [snd].
  destruct (registry_get name reg) as [stored|]; [|discriminate].
  destruct (Js.is_empty stored); [discriminate|].
  intros H1 H2. injection H1 as H1. injection H2 as H2.
  apply String.eqb_eq in H1, H2. congruence.
Qed.

Lemma isMatchingTarget_unique_witness :
  Target.id examplePage = Target.id (Target.set_url "http://example.com/moved" examplePage).
Proof.
  apply (isMatchingTarget_unique (fst (register (Some "main") (Some "A1") ∅))
           examplePage (Target.set_url "http://example.com/moved" examplePage)
           (IObject (Some "main")));
    reflexivity.
Defined.

(** ** URL match with Node's path.join *)

Section WithPathJoin.
Variable parse : string -> error + Url.parsed.
Variables redirect escape : string -> string.
Variable trim : option string -> string -> error + string.
Let env : Env := mkEnv parse Path.join redirect escape trim.

(** An identifier that parses with a host is left as it is. *)
Lemma prependHttp_with_host (s : string) (parsed : Url.parsed) :
  parse s = inr parsed -> Url.host parsed <> None ->
  prependHttp env s = inr s.
Proof.
  intros Hs Hhost. unfold prependHttp. cbn [url_parse env]. rewrite Hs.
  destruct (Js.is_empty s); [reflexivity|].
  destruct (Url.host parsed); [reflexivity | congruence].
Qed.

(** X7: with Node's [path.join] the URL match looks at host and pathname
    only: a string identifier that [url.parse] gives a host, and the same
    host and pathname as the url of the target, matches it, whatever their
    schemes, queries and fragments. *)
Theorem isMatchingUrl_same_host_and_path (target : Target.t) (s : string)
    (parsedUrl parsedTargetUrl : Url.parsed) :
  parse (Target.url target) = inr parsedUrl ->
  parse s = inr parsedTargetUrl ->
  Url.host parsedTargetUrl <> None ->
  orEmpty (Url.host parsedUrl) = orEmpty (Url.host parsedTargetUrl) ->
  orEmpty (Url.pathname parsedUrl) = orEmpty (Url.pathname parsedTargetUrl) ->
  fst (isMatchingUrl env target (IString s)) = inr (VBool true).
Proof.
  intros Hu Hs Hhost Hh Hp. unfold isMatchingUrl.
  rewrite (prependHttp_with_host s parsedTargetUrl Hs Hhost).
  cbn [url_parse env]. rewrite Hu, Hs. cbn [fst]. do 2 f_equal.
  unfold env. rewrite urlChecks_join, Hh, Hp, String.eqb_refl.
  by rewrite orb_true_r.
Qed.

(** X8: with Node's [path.join] a target whose url [url.parse] gives a host
    always matches its own url. *)
Theorem isMatchingUrl_own_url (target : Target.t) (parsedUrl : Url.parsed) :
  parse (Target.url target) = inr parsedUrl ->
  Url.host parsedUrl <> None ->
  fst (isMatchingUrl env target (IString (Target.url target))) = inr (VBool true).
Proof.
  intros Hu Hhost. unfold isMatchingUrl.
  rewrite (prependHttp_with_host _ parsedUrl Hu Hhost).
  cbn [url_parse env]. rewrite Hu. cbn [fst]. do 2 f_equal.
  unfold env. rewrite urlChecks_join, String.eqb_refl.
  by rewrite orb_true_r.
Qed.

End WithPathJoin.

Lemma isMatchingUrl_same_host_and_path_witness :
  fst (isMatchingUrl sampleEnv docsPage
         (IString "https://example.com/docs/?page=2#intro")) = inr (VBool true).
Proof.
  eapply (isMatchingUrl_same_host_and_path Url.parse dropFinalSlash
            (fun s => s) sampleTrim docsPage
            "https://example.com/docs/?page=2#intro");
    [reflexivity | reflexivity | discriminate | reflexivity | reflexivity].
Defined.

Lemma isMatchingUrl_own_url_witness :
  fst (isMatchingUrl sampleEnv docsPage (IString "http://example.com/docs/"))
  = inr (VBool true).
Proof.
  eapply (isMatchingUrl_own_url Url.parse dropFinalSlash (fun s => s) sampleTrim
            docsPage);
    [reflexivity | discriminate].
Defined.

(** A url without scheme does not: the identifier gets [http://] in front
    and then has a host the target's url lacks. *)
Lemma isMatchingUrl_own_url_schemeless :
  fst (isMatchingUrl sampleEnv schemelessPage (IString "example.com"))
  = inr (VBool false).
Proof. reflexivity. Qed.

Lemma getCriTargets_string_witness :
  fst (getCriTargets busyRemote sampleEnv (IString "example.com") idle)
  = inr (mkPartition
           [Target.set_url "http://example.com" examplePage]
           [Target.set_url "http://example.com/docs" docsPage;
            Target.set_url "http://example.org" otherPage]).
Proof.
  rewrite (getCriTargets_string sampleEnv "example.com" "http://example.com"
             (Url.mkParsed (Some "http:") (Some "example.com") (Some "/")
                "http://example.com/")
             (fun u => match Url.parse u with
                       | inr parsed => parsed
                       | inl _ => Url.mkParsed None None None EmptyString
                       end)
             eq_refl eq_refl busyRemote idle
             [docsPage; workerTarget; examplePage; otherPage]
             ltac:(discriminate) eq_refl).
  - reflexivity.
  - intros t Hin _. apply list_elem_of_In in Hin. simpl in Hin.
    destruct Hin as [<-|[<-|[<-|[<-|[]]]]]; reflexivity.
Defined.

(** ** getCriTargets: what every call does *)

Local Open Scope list_scope.

(** X9: whatever the identifier and whatever the outcome, [getCriTargets]
    sends exactly one request, the list query, and leaves the registry, the
    active context and the active target as they were. *)
Theorem getCriTargets_one_query (remote : Remote) (env : Env)
    (identifier : identifier) (st : state) :
  snd (getCriTargets remote env identifier st) = add_trace [Called ListTargets] st.
Proof.
  unfold getCriTargets, bind, request, get_state, ret, throw.
  destruct (onList remote (trace st)) as [e|targets]; [reflexivity|].
  destruct (falsy identifier); [reflexivity|].
  cbn [emit targetRegistry].
  destruct (classifyAll _ _ _ _ _); reflexivity.
Qed.

Lemma isMatchingUrl_keeps_identity (env : Env) (t : Target.t) (i : identifier) :
  Target.id (snd (isMatchingUrl env t i)) = Target.id t /\
  Target.type (snd (isMatchingUrl env t i)) = Target.type t.
Proof.
  destruct i as [|s|re|name]; try (split; reflexivity).
  unfold isMatchingUrl.
  destruct (prependHttp env s) as [e|identifier]; [by split|].
  destruct (url_parse env (Target.url t)) as [e|parsedUrl]; [by split|].
  destruct (url_parse env identifier); by split.
Qed.

(** One turn of the loop pushes the target, as [isMatchingUrl] left it, on
    one of the two arrays. *)
Lemma classify_pushes (env : Env) (i : identifier) (reg : registry)
    (response response' : partition) (t : Target.t) :
  classify env i reg response t = inr response' ->
  let t' := snd (isMatchingUrl env t i) in
  (matching response' = matching response ++ [t'] /\
   others response' = others response) \/
  (matching response' = matching response /\
   others response' = others response ++ [t']).
Proof.
  unfold classify.
  destruct (isMatchingUrl env t i) as [[e|byUrl] t'] eqn:Hu; [discriminate|].
  cbn [snd].
  destruct (truthy byUrl); [intros [= <-]; by left|].
  destruct (isMatchingRegex env t' i) as [e|byRegex]; [discriminate|].
  destruct (truthy byRegex); [intros [= <-]; by left|].
  destruct (isMatchingTarget reg t' i) as [e|byName]; [discriminate|].
  destruct (truthy byName); intros [= <-]; [by left | by right].
Qed.

Lemma classifyAll_partitions (env : Env) (i : identifier) (reg : registry)
    (pages : list Target.t) :
  forall response response',
    classifyAll env i reg response pages = inr response' ->
    exists ms os,
      matching response' = matching response ++ ms /\
      others response' = others response ++ os /\
      Target.id <$> (ms ++ os) ≡ₚ Target.id <$> pages /\
      sublist (Target.id <$> ms) (Target.id <$> pages) /\
      sublist (Target.id <$> os) (Target.id <$> pages) /\
      (Forall (fun t => Target.type t = "page") pages ->
       Forall (fun t => Target.type t = "page") (ms ++ os)).
Proof.
  induction pages as [|t pages IH]; intros response response' H.
  - injection H as <-. exists [], []. rewrite !app_nil_r.
    repeat split; try constructor.
  - cbn [classifyAll] in H.
    destruct (classify env i reg response t) as [e|response1] eqn:Hc;
      [discriminate|].
    apply classify_pushes in Hc. cbv zeta in Hc.
    destruct (isMatchingUrl_keeps_identity env t i) as [Hid Htype].
    destruct (IH _ _ H) as (ms & os & Hm & Ho & Hperm & Hsm & Hso & Hty).
    destruct Hc as [[Hm1 Ho1]|[Hm1 Ho1]]; rewrite Hm1, Ho1 in *.
    + exists (snd (isMatchingUrl env t i) :: ms), os.
      rewrite <- app_assoc in Hm. repeat split; try assumption.
      * cbn. rewrite Hid. by f_equiv.
      * cbn. rewrite Hid. by constructor.
      * cbn. by constructor.
      * intros Hall. inversion Hall; subst. cbn. constructor; [congruence|auto].
    + exists ms, (snd (isMatchingUrl env t i) :: os).
      rewrite <- app_assoc in Ho. repeat split; try assumption.
      * rewrite fmap_app, fmap_cons, Hid. rewrite <- Permutation_middle.
        cbn. f_equiv. by rewrite <- fmap_app.
      * cbn. by constructor.
      * cbn. rewrite Hid. by constructor.
      * intros Hall. inversion Hall; subst.
        apply Forall_app. specialize (Hty ltac:(assumption)).
        apply Forall_app in Hty as [Hms Hos].
        split; [assumption|]. constructor; [congruence|assumption].
Qed.

Lemma filter_complement_perm {A} (f : A -> bool) (l : list A) :
  List.filter f l ++ List.filter (fun x => negb (f x)) l ≡ₚ l.
Proof.
  induction l as [|x l IH]; [reflexivity|]. cbn.
  destruct (f x); cbn.
  - by f_equiv.
  - rewrite <- Permutation_middle. by f_equiv.
Qed.

Lemma filter_bool_Forall {A} (f : A -> bool) (l : list A) :
  Forall (fun x => f x = true) (List.filter f l).
Proof.
  induction l as [|x l IH]; cbn; [constructor|].
  destruct (f x) eqn:E; [by constructor | assumption].
Qed.

(** X10: when [getCriTargets] answers, with or without identifier, every
    page of the list is in exactly one of [matching] and [others], each of
    the two keeps the order of the list, and nothing that is not a page is
    answered. *)
Theorem getCriTargets_partitions_pages (remote : Remote) (env : Env)
    (identifier : identifier) (st : state) (targets : list Target.t)
    (response : partition) :
  onList remote (trace st) = inr targets ->
  fst (getCriTargets remote env identifier st) = inr response ->
  let ids := Target.id <$> List.filter Target.is_page targets in
  Target.id <$> (matching response ++ others response) ≡ₚ ids /\
  sublist (Target.id <$> matching response) ids /\
  sublist (Target.id <$> others response) ids /\
  Forall (fun t => Target.type t = "page") (matching response ++ others response).
Proof.
  intros Hl. unfold getCriTargets, bind, request, get_state, ret, throw.
  rewrite Hl. cbv zeta.
  assert (Forall (fun t => Target.type t = "page")
            (List.filter Target.is_page targets)) as Hpages.
  { eapply Forall_impl; [apply filter_bool_Forall|].
    intros t. apply is_page_type. }
  destruct (falsy identifier).
  - cbn [fst emit activeTargetId]. intros [= <-]. cbn [matching others].
    repeat split.
    + by rewrite filter_complement_perm.
    + apply fmap_sublist, filter_sublist_of.
    + apply fmap_sublist, filter_sublist_of.
    + rewrite filter_complement_perm. exact Hpages.
  - cbn [emit targetRegistry].
    destruct (classifyAll _ _ _ _ _) as [e|response'] eqn:Hc; [discriminate|].
    cbn [fst]. intros [= <-].
    apply classifyAll_partitions in Hc
      as (ms & os & Hm & Ho & Hperm & Hsm & Hso & Hty).
    cbn in Hm, Ho. subst ms os. auto.
Qed.

Lemma getCriTargets_partitions_pages_witness :
  ["A1"; "B2"; "D4"] ≡ₚ ["B2"; "A1"; "D4"] /\
  sublist ["A1"] ["B2"; "A1"; "D4"] /\
  sublist ["B2"; "D4"] ["B2"; "A1"; "D4"] /\
  Forall (fun t => Target.type t = "page")
    [Target.set_url "http://example.com" examplePage;
     Target.set_url "http://example.com/docs" docsPage;
     Target.set_url "http://example.org" otherPage].
Proof.
  exact (getCriTargets_partitions_pages busyRemote sampleEnv
           (IString "example.com") idle
           [docsPage; workerTarget; examplePage; otherPage]
           (mkPartition
              [Target.set_url "http://example.com" examplePage]
              [Target.set_url "http://example.com/docs" docsPage;
               Target.set_url "http://example.org" otherPage])
           eq_refl eq_refl).
Defined.

(** ** getCriTargets with a name or a regular expression *)

Section NameIdentifier.
Variable env : Env.
Variable reg : registry.
Variable name : string.
Hypothesis reg_ok : registry_ok reg.

Let registered (t : Target.t) : bool :=
  bool_decide (reg !! name = Some (Target.id t)).

Lemma classify_name (response : partition) (t : Target.t) :
  classify env (IObject (Some name)) reg response t
  = inr (if registered t
         then mkPartition (matching response ++ [t]) (others response)
         else mkPartition (matching response) (others response ++ [t])).
Proof.
  unfold classify. cbn [isMatchingUrl truthy isMatchingRegex].
  rewrite (isMatchingTarget_named _ _ _ reg_ok). unfold registered.
  destruct (reg !! name) as [stored|]; [|reflexivity]. cbn [truthy].
  destruct (String.eqb_spec stored (Target.id t)) as [->|Hne].
  - by rewrite bool_decide_eq_true_2.
  - rewrite bool_decide_eq_false_2; [reflexivity | congruence].
Qed.

Lemma classifyAll_name (pages : list Target.t) :
  forall response,
    classifyAll env (IObject (Some name)) reg response pages
    = inr (mkPartition
             (matching response ++ List.filter registered pages)
             (others response ++ List.filter (fun t => negb (registered t)) pages)).
Proof.
  induction pages as [|t pages IH]; intros response.
  - cbn. rewrite !app_nil_r. by destruct response.
  - cbn [classifyAll]. rewrite classify_name, IH. cbn [List.filter].
    destruct (registered t); cbn [negb matching others];
      by rewrite <- ?app_assoc.
Qed.

End NameIdentifier.

Lemma filter_none {A} (f : A -> bool) (l : list A) :
  (forall x, f x = false) -> List.filter f l = [].
Proof.
  intros H. induction l as [|x l IH]; [reflexivity|]. cbn. by rewrite H.
Qed.

Lemma filter_all {A} (f : A -> bool) (l : list A) :
  (forall x, f x = true) -> List.filter f l = l.
Proof.
  intros H. induction l as [|x l IH]; [reflexivity|]. cbn. by rewrite H, IH.
Qed.

(** X11: with an identifier that carries a [name], [getCriTargets] never
    throws and leaves the targets as they are: [matching] holds the pages
    whose id is the one registered under the name, [others] the remaining
    pages, both in list order; under a name that is not registered every page
    is in [others]. *)
Theorem getCriTargets_by_name (remote : Remote) (env : Env) (st : state)
    (name : string) (targets : list Target.t) :
  registry_ok (targetRegistry st) ->
  onList remote (trace st) = inr targets ->
  let pages := List.filter Target.is_page targets in
  let registered t :=
    bool_decide (targetRegistry st !! name = Some (Target.id t)) in
  fst (getCriTargets remote env (IObject (Some name)) st)
  = inr (mkPartition (List.filter registered pages)
           (List.filter (fun t => negb (registered t)) pages)) /\
  (targetRegistry st !! name = None ->
   fst (getCriTargets remote env (IObject (Some name)) st)
   = inr (mkPartition [] pages)).
Proof.
  intros Hok Hl. cbv zeta.
  assert (fst (getCriTargets remote env (IObject (Some name)) st)
          = inr (mkPartition
                   (List.filter
                      (fun t => bool_decide
                                  (targetRegistry st !! name = Some (Target.id t)))
                      (List.filter Target.is_page targets))
                   (List.filter
                      (fun t => negb (bool_decide
                                  (targetRegistry st !! name = Some (Target.id t))))
                      (List.filter Target.is_page targets)))) as Hrun.
  { unfold getCriTargets, bind, request, get_state, ret. rewrite Hl.
    cbn [falsy emit targetRegistry]. by rewrite classifyAll_name. }
  split; [exact Hrun|].
  intros Hnone. rewrite Hrun, Hnone. f_equal. f_equal.
  - apply filter_none. intros t. by apply bool_decide_eq_false_2.
  - apply filter_all. intros t. by rewrite bool_decide_eq_false_2.
Qed.

Lemma getCriTargets_by_name_witness :
  fst (getCriTargets busyRemote sampleEnv (IObject (Some "docs"))
         (mkState (fst (register (Some "docs") (Some "B2") ∅))
            (Some "ctx-1") (Some "A1") []))
  = inr (mkPartition [docsPage] [examplePage; otherPage]).
Proof.
  rewrite (proj1 (getCriTargets_by_name busyRemote sampleEnv
                    (mkState (fst (register (Some "docs") (Some "B2") ∅))
                       (Some "ctx-1") (Some "A1") [])
                    "docs" [docsPage; workerTarget; examplePage; otherPage]
                    (registry_ok_register _ _ _ registry_ok_empty) eq_refl)).
  reflexivity.
Defined.

Lemma classifyAll_regex_throws (env : Env) (re : RegExp) (reg : registry)
    (pages : list Target.t) (t : Target.t) :
  t ∈ pages ->
  (forall parsedUrl,
     url_parse env (Target.url t) = inr parsedUrl ->
     Url.protocol parsedUrl = None) ->
  forall response,
    exists e, classifyAll env (IRegExp re) reg response pages = inl e.
Proof.
  intros Hin Hp. induction Hin as [t pages|t t0 pages Hin IH]; intros response.
  - cbn [classifyAll]. unfold classify. cbn [isMatchingUrl truthy].
    destruct (isMatchingRegex_null_protocol env t re Hp) as [e ->].
    by exists e.
  - cbn [classifyAll].
    destruct (classify env (IRegExp re) reg response t0) as [e|response1];
      [by exists e | by apply IH].
Qed.

(** X13: with a regular expression, one page whose url [url.parse] refuses
    or parses without protocol makes the whole of [getCriTargets] fail: it
    rejects, whatever the other pages are and whether or not they match. *)
Theorem getCriTargets_regex_rejects (remote : Remote) (env : Env) (st : state)
    (re : RegExp) (targets : list Target.t) (t : Target.t) :
  onList remote (trace st) = inr targets ->
  t ∈ targets ->
  Target.type t = "page" ->
  (forall parsedUrl,
     url_parse env (Target.url t) = inr parsedUrl ->
     Url.protocol parsedUrl = None) ->
  exists e, fst (getCriTargets remote env (IRegExp re) st) = inl e.
Proof.
  intros Hl Hin Hty Hp. unfold getCriTargets, bind, request, get_state, throw.
  rewrite Hl. cbn [falsy emit targetRegistry].
  destruct (classifyAll_regex_throws env re (targetRegistry st)
              (List.filter Target.is_page targets) t) with (response := mkPartition [] [])
    as [e ->]; [|exact Hp|eauto].
  apply elem_of_filter_bool. split; [exact Hin | by apply is_page_type].
Qed.

Lemma getCriTargets_regex_rejects_witness :
  exists e, fst (getCriTargets mixedRemote sampleEnv (IRegExp reExample) idle) = inl e.
Proof.
  apply (getCriTargets_regex_rejects mixedRemote sampleEnv idle reExample
           [examplePage; schemelessPage] schemelessPage eq_refl).
  - apply list_elem_of_In. simpl. tauto.
  - reflexivity.
  - intros parsedUrl [= <-]. reflexivity.
Defined.

(** X23: with a non-empty string identifier that [url.parse] refuses,
    [getCriTargets] rejects with the error of [url.parse] as soon as the list
    has one page, whatever the pages are; with no page it resolves with two
    empty arrays, the identifier never being parsed. *)
Theorem getCriTargets_string_refused (remote : Remote) (env : Env) (st : state)
    (s : string) (e : error) (targets : list Target.t) :
  s <> EmptyString ->
  url_parse env s = inl e ->
  onList remote (trace st) = inr targets ->
  fst (getCriTargets remote env (IString s) st)
  = match List.filter Target.is_page targets with
    | [] => inr (mkPartition [] [])
    | _ :: _ => inl e
    end.
Proof.
  intros Hs Hparse Hl. unfold getCriTargets, bind, request, get_state, ret, throw.
  rewrite Hl. cbn [falsy]. apply is_empty_false in Hs. rewrite Hs.
  cbn [emit targetRegistry].
  destruct (List.filter Target.is_page targets) as [|t pages]; [reflexivity|].
  cbn [classifyAll]. unfold classify, isMatchingUrl, prependHttp.
  by rewrite Hs, Hparse.
Qed.

Lemma getCriTargets_string_refused_witness :
  fst (getCriTargets busyRemote sampleEnv (IString "http://%@x") idle)
  = inl (URIError "URI malformed") /\
  fst (getCriTargets emptyRemote sampleEnv (IString "http://%@x") idle)
  = inr (mkPartition [] []).
Proof.
  split.
  - exact (getCriTargets_string_refused busyRemote sampleEnv idle "http://%@x"
             (URIError "URI malformed")
             [docsPage; workerTarget; examplePage; otherPage]
             ltac:(discriminate) eq_refl eq_refl).
  - exact (getCriTargets_string_refused emptyRemote sampleEnv idle "http://%@x"
             (URIError "URI malformed") [] ltac:(discriminate) eq_refl eq_refl).
Defined.

(** ** Browser context manager: the state the operations leave *)

(** [createTarget] only adds to the trace: one request or two. *)
Lemma createTarget_adds (remote : Remote) (url : string) (st : state) :
  exists evs,
    snd (createTarget remote url st) = add_trace evs st /\
    (evs = [Called (CreateTarget url (activeBrowserContextId st))] \/
     evs = [Called (CreateTarget url (activeBrowserContextId st));
            Called (CreateTarget url None)]).
Proof.
  destruct (onCreateTarget remote (trace st) url (activeBrowserContextId st))
    as [e|targetId] eqn:H1.
  - destruct (staleContext e) eqn:Hs.
    + destruct (onCreateTarget remote
                  (trace st ++ [Called (CreateTarget url (activeBrowserContextId st))])
                  url None) as [e2|targetId] eqn:H2.
      * rewrite (createTarget_fallback_rejected remote url st e e2 H1 Hs H2). eauto.
      * rewrite (createTarget_fallback remote url st e targetId H1 Hs H2). eauto.
    + rewrite (createTarget_rethrows remote url st e H1 Hs). eauto.
  - rewrite (createTarget_resolved remote url st targetId H1). eauto.
Qed.

(** [closeBrowserContext] when both requests are answered. *)
Lemma closeBrowserContext_run (remote : Remote) (targetId : string)
    (st : state) (c : option string) :
  onGetTargetInfo remote (trace st) targetId = inr c ->
  onDisposeBrowserContext remote (trace st ++ [Called (GetTargetInfo targetId)]) c
  = inr tt ->
  closeBrowserContext remote targetId st
  = (inr (bool_decide (c = activeBrowserContextId st)),
     add_trace [Called (GetTargetInfo targetId); Called (DisposeBrowserContext c)] st).
Proof.
  intros H1 H2.
  unfold closeBrowserContext, getBrowserContextIdForTarget, bind, request,
    get_state, ret.
  rewrite H1. cbn [emit trace]. rewrite H2.
  by rewrite !emit_add_trace, add_trace_add.
Qed.

(** [switchBrowserContext] once the context of the target is known. *)
Lemma switchBrowserContext_run (remote : Remote) (targetId : string)
    (st : state) (c : option string) :
  onGetTargetInfo remote (trace st) targetId = inr c ->
  switchBrowserContext remote targetId st
  = (match onActivateTarget remote (trace st ++ [Called (GetTargetInfo targetId)])
             targetId with
     | inl e => inl e
     | inr _ => inr tt
     end,
     set_activeBrowserContextId c
       (add_trace [Called (GetTargetInfo targetId);
                   Called (ActivateTarget targetId)] st)).
Proof.
  intros H1.
  unfold switchBrowserContext, getBrowserContextIdForTarget, bind, request, modify.
  rewrite H1. unfold set_activeBrowserContextId, add_trace, emit. cbn.
  rewrite <- app_assoc.
  destruct (onActivateTarget _ _ _) as [e|[]]; reflexivity.
Qed.

(** X14: [createTarget] leaves the registry, the active context and the
    active target as they were, whatever the outcome.  It sends one request,
    with the active context, or two, the second without context; the second
    is sent exactly when the first was rejected with a stale-context error. *)
Theorem createTarget_frame (remote : Remote) (url : string) (st : state) :
  let st' := snd (createTarget remote url st) in
  let ctx := activeBrowserContextId st in
  targetRegistry st' = targetRegistry st /\
  activeBrowserContextId st' = ctx /\
  activeTargetId st' = activeTargetId st /\
  (trace st' = trace st ++ [Called (CreateTarget url ctx)] \/
   trace st' = trace st ++ [Called (CreateTarget url ctx); Called (CreateTarget url None)]) /\
  (trace st' = trace st ++ [Called (CreateTarget url ctx); Called (CreateTarget url None)]
   <-> exists e, onCreateTarget remote (trace st) url ctx = inl e /\
                 staleContext e = true).
Proof.
  cbv zeta.
  assert (forall a b : event, trace st ++ [a] <> trace st ++ [a; b]) as Hlen.
  { intros a b H. apply (f_equal length) in H. rewrite !length_app in H.
    cbn in H. lia. }
  destruct (onCreateTarget remote (trace st) url (activeBrowserContextId st))
    as [e|targetId] eqn:H1.
  - destruct (staleContext e) eqn:Hs.
    + destruct (onCreateTarget remote
                  (trace st ++ [Called (CreateTarget url (activeBrowserContextId st))])
                  url None) as [e2|targetId] eqn:H2.
      * rewrite (createTarget_fallback_rejected remote url st e e2 H1 Hs H2).
        cbn. repeat split; eauto.
      * rewrite (createTarget_fallback remote url st e targetId H1 Hs H2).
        cbn. repeat split; eauto.
    + rewrite (createTarget_rethrows remote url st e H1 Hs). cbn.
      repeat split; eauto.
      * intros H. by apply Hlen in H.
      * intros (e' & [= <-] & Hs'). congruence.
  - rewrite (createTarget_resolved remote url st targetId H1). cbn.
    repeat split; eauto.
    + intros H. by apply Hlen in H.
    + intros (e' & He' & _). discriminate.
Qed.

(** X15: when the browser answers [createBrowserContext] with a new context
    and then creates the target inside it, the new context is the active one,
    the target was asked for inside it, not inside the previous one, and the
    id of the target is returned. *)
Theorem createBrowserContext_adopts_context (remote : Remote) (url : string)
    (st : state) (c targetId : string) :
  onCreateBrowserContext remote (trace st) = inr c ->
  onCreateTarget remote (trace st ++ [Called CreateBrowserContext]) url (Some c)
  = inr targetId ->
  createBrowserContext remote url st
  = (inr (Some targetId),
     set_activeBrowserContextId (Some c)
       (add_trace [Called CreateBrowserContext; Called (CreateTarget url (Some c))] st)).
Proof.
  intros H1 H2. unfold createBrowserContext, bind, request, modify.
  rewrite H1.
  rewrite (createTarget_resolved remote url _ targetId); [|exact H2].
  unfold add_trace, emit, set_activeBrowserContextId. cbn.
  by rewrite <- app_assoc.
Qed.

Lemma createBrowserContext_adopts_context_witness :
  createBrowserContext emptyRemote "http://example.com/" idle
  = (inr (Some "T1"),
     mkState ∅ (Some "ctx-2") (Some "A1")
       [Called CreateBrowserContext;
        Called (CreateTarget "http://example.com/" (Some "ctx-2"))]).
Proof.
  exact (createBrowserContext_adopts_context emptyRemote "http://example.com/"
           idle "ctx-2" "T1" eq_refl eq_refl).
Defined.

(** X16: once the browser has created the context, [createBrowserContext]
    keeps it as the active context whatever becomes of the target: when the
    creation of the target is rejected the call rejects, the new context stays
    active, and no request to dispose of it is sent. *)
Theorem createBrowserContext_keeps_new_context (remote : Remote) (url : string)
    (st : state) (c : string) :
  onCreateBrowserContext remote (trace st) = inr c ->
  let st' := snd (createBrowserContext remote url st) in
  activeBrowserContextId st' = Some c /\
  (trace st'
   = trace st ++ [Called CreateBrowserContext; Called (CreateTarget url (Some c))] \/
   trace st'
   = trace st ++ [Called CreateBrowserContext; Called (CreateTarget url (Some c));
                  Called (CreateTarget url None)]) /\
  (forall err,
     onCreateTarget remote (trace st ++ [Called CreateBrowserContext]) url (Some c)
     = inl err ->
     staleContext err = false ->
     fst (createBrowserContext remote url st) = inl err).
Proof.
  intros H1. cbv zeta.
  set (st1 := set_activeBrowserContextId (Some c) (emit (Called CreateBrowserContext) st)).
  assert (createBrowserContext remote url st = createTarget remote url st1) as ->.
  { unfold createBrowserContext, bind, request, modify. by rewrite H1. }
  destruct (createTarget_adds remote url st1) as (evs & -> & Hevs).
  split; [reflexivity|]. split.
  - cbn. rewrite <- !app_assoc. cbn.
    destruct Hevs as [->| ->]; [by left | by right].
  - intros err H2 Hs.
    by rewrite (createTarget_rethrows remote url st1 err H2 Hs).
Qed.

Lemma createBrowserContext_keeps_new_context_witness :
  activeBrowserContextId
    (snd (createBrowserContext noTargetRemote "http://example.com/" idle))
  = Some "ctx-2" /\
  fst (createBrowserContext noTargetRemote "http://example.com/" idle) = inl refused.
Proof.
  destruct (createBrowserContext_keeps_new_context noTargetRemote
              "http://example.com/" idle "ctx-2" eq_refl) as (Hctx & _ & Herr).
  split; [exact Hctx | exact (Herr refused eq_refl eq_refl)].
Defined.

(** X17: when both requests are answered, [closeBrowserContext] has asked
    the browser to dispose of the context of the target and returns whether
    that context is the active one; it leaves [activeBrowserContextId] as it
    was even then. *)
Theorem closeBrowserContext_reports_active (remote : Remote) (targetId : string)
    (st : state) (c : option string) :
  onGetTargetInfo remote (trace st) targetId = inr c ->
  onDisposeBrowserContext remote (trace st ++ [Called (GetTargetInfo targetId)]) c
  = inr tt ->
  closeBrowserContext remote targetId st
  = (inr (bool_decide (c = activeBrowserContextId st)),
     add_trace [Called (GetTargetInfo targetId); Called (DisposeBrowserContext c)] st) /\
  activeBrowserContextId (snd (closeBrowserContext remote targetId st))
  = activeBrowserContextId st.
Proof.
  intros H1 H2.
  rewrite (closeBrowserContext_run remote targetId st c H1 H2).
  split; reflexivity.
Qed.

Lemma closeBrowserContext_reports_active_witness :
  fst (closeBrowserContext contextRemote "A1"
         (mkState ∅ (Some "ctx-7") (Some "A1") [])) = inr true /\
  fst (closeBrowserContext contextRemote "A1" idle) = inr false.
Proof.
  split.
  - rewrite (proj1 (closeBrowserContext_reports_active contextRemote "A1"
                      (mkState ∅ (Some "ctx-7") (Some "A1") []) (Some "ctx-7")
                      eq_refl eq_refl)).
    reflexivity.
  - rewrite (proj1 (closeBrowserContext_reports_active contextRemote "A1"
                      idle (Some "ctx-7") eq_refl eq_refl)).
    reflexivity.
Defined.

(** X18: [switchBrowserContext] adopts the context of the target before it
    asks for the activation: once the browser has answered with the context,
    that context is the active one whether the activation is then accepted or
    rejected. *)
Theorem switchBrowserContext_adopts_before_activation (remote : Remote)
    (targetId : string) (st : state) (c : option string) :
  onGetTargetInfo remote (trace st) targetId = inr c ->
  let st' := snd (switchBrowserContext remote targetId st) in
  activeBrowserContextId st' = c /\
  trace st' = trace st ++ [Called (GetTargetInfo targetId);
                           Called (ActivateTarget targetId)] /\
  fst (switchBrowserContext remote targetId st)
  = match onActivateTarget remote (trace st ++ [Called (GetTargetInfo targetId)])
            targetId with
    | inl e => inl e
    | inr _ => inr tt
    end.
Proof.
  intros H1. cbv zeta.
  rewrite (switchBrowserContext_run remote targetId st c H1).
  repeat split.
Qed.

Lemma switchBrowserContext_adopts_before_activation_witness :
  activeBrowserContextId (snd (switchBrowserContext noActivateRemote "A1" idle))
  = Some "ctx-7" /\
  fst (switchBrowserContext noActivateRemote "A1" idle) = inl refused.
Proof.
  destruct (switchBrowserContext_adopts_before_activation noActivateRemote "A1"
              idle (Some "ctx-7") eq_refl) as (Hctx & _ & Hres).
  split; [exact Hctx | exact Hres].
Defined.

(** X19: after a [switchBrowserContext] to a target, [closeBrowserContext]
    of the same target returns [true], as long as the browser still reports
    the target in the same context. *)
Theorem close_after_switch_is_active (remote : Remote) (targetId : string)
    (st : state) (c : option string) :
  let st1 := snd (switchBrowserContext remote targetId st) in
  onGetTargetInfo remote (trace st) targetId = inr c ->
  onGetTargetInfo remote (trace st1) targetId = inr c ->
  onDisposeBrowserContext remote (trace st1 ++ [Called (GetTargetInfo targetId)]) c
  = inr tt ->
  fst (closeBrowserContext remote targetId st1) = inr true.
Proof.
  cbv zeta. intros H1 H2 H3.
  rewrite (closeBrowserContext_run remote targetId _ c H2 H3).
  rewrite (switchBrowserContext_run remote targetId st c H1).
  cbn [fst snd set_activeBrowserContextId activeBrowserContextId add_trace].
  f_equal. by apply bool_decide_eq_true_2.
Qed.

Lemma close_after_switch_is_active_witness :
  fst (closeBrowserContext contextRemote "A1"
         (snd (switchBrowserContext contextRemote "A1" idle))) = inr true.
Proof.
  exact (close_after_switch_is_active contextRemote "A1" idle (Some "ctx-7")
           eq_refl eq_refl eq_refl).
Defined.

(** ** waitForTargetToBeCreated for every [n] and every browser *)

Lemma findPage_adds (remote : Remote) (st : state) :
  snd (findPage remote st) = add_trace [Called ListTargets] st.
Proof.
  unfold findPage, bind, request, throw, ret.
  destruct (onList remote (trace st)) as [e|[|t l]]; try reflexivity.
  destruct (List.find Target.is_page (t :: l)); reflexivity.
Qed.

Lemma findPage_found (remote : Remote) (st st1 : state) (t : Target.t) :
  findPage remote st = (inr t, st1) ->
  exists l, onList remote (trace st) = inr l /\
            List.find Target.is_page l = Some t.
Proof.
  unfold findPage, bind, request, throw, ret.
  destruct (onList remote (trace st)) as [e|[|t0 l]]; try discriminate.
  destruct (List.find Target.is_page (t0 :: l)) as [t'|] eqn:Hf; [|discriminate].
  intros [= <- _]. eauto.
Qed.

Lemma attempts_last (n : Z) : n < 2 -> attempts n = 1%nat.
Proof. unfold attempts. lia. Qed.

Lemma attempts_retry (n : Z) : 2 <= n -> attempts n = S (attempts (n - 1)).
Proof. unfold attempts. lia. Qed.

Lemma attempts_positive (n : Z) : exists k, attempts n = S k.
Proof. unfold attempts. exists (Z.to_nat (Z.max n 1) - 1)%nat. lia. Qed.

Lemma add_trace_nil (st : state) : add_trace [] st = st.
Proof. destruct st. unfold add_trace. cbn. by rewrite app_nil_r. Qed.

Lemma failures_of_nil (remote : Remote) (st : state) : failures_of remote st [].
Proof. intros i err H. rewrite lookup_nil in H. discriminate. Qed.

Lemma failures_of_cons (remote : Remote) (st : state) (err : error)
    (errs : list error) :
  fst (findPage remote st) = inl err ->
  failures_of remote (add_trace [Called ListTargets; Logged err; Slept 100] st) errs ->
  failures_of remote st (err :: errs).
Proof.
  intros Hfirst Hrest [|i] e H.
  - injection H as <-. cbn [take retries flat_map]. by rewrite add_trace_nil.
  - cbn in H. specialize (Hrest i e H).
    rewrite add_trace_add in Hrest. exact Hrest.
Qed.

Lemma waitForTargetToBeCreated_rejects_aux (remote : Remote) (k : nat) :
  forall (n : Z) (st st' : state) (e : error),
    attempts n = S k ->
    waitForTargetToBeCreated remote n st = (inl e, st') ->
    exists errs,
      st' = add_trace (retries errs ++ [Called ListTargets; Logged e]) st /\
      length errs = k /\
      failures_of remote st errs /\
      fst (findPage remote (add_trace (retries errs) st)) = inl e.
Proof.
  induction k as [|k IH]; intros n st st' e Hk;
    rewrite waitForTargetToBeCreated_eq;
    pose proof (findPage_adds remote st) as Hst1;
    destruct (findPage remote st) as [[err|t] st1] eqn:Hf; try discriminate;
    cbn [snd] in Hst1; subst st1;
    destruct (Z_lt_dec n 2) as [Hn|Hn];
    try (unfold attempts in Hk; lia).
  - intros [= <- <-]. exists [].
    rewrite emit_add_trace, add_trace_add. repeat split.
    + apply failures_of_nil.
    + cbn [retries flat_map]. by rewrite add_trace_nil, Hf.
  - rewrite !emit_add_trace, !add_trace_add. intros Hrun.
    rewrite attempts_retry in Hk by lia. injection Hk as Hk.
    destruct (IH _ _ _ _ Hk Hrun) as (errs & -> & Hlen & Hfail & Hlast).
    exists (err :: errs). rewrite add_trace_add.
    repeat split.
    + cbn. by rewrite Hlen.
    + apply failures_of_cons; [by rewrite Hf | exact Hfail].
    + rewrite add_trace_add in Hlast. exact Hlast.
Qed.

(** X20: when [waitForTargetToBeCreated(n)] rejects, against any browser,
    what it did is exactly this, in this order: [max n 1] list queries, each
    followed by the log of what that query failed with, and each but the last
    followed, after the log, by a wait of 100ms; the error it rejects with is
    the failure of the last query; the module's variables are untouched. *)
Theorem waitForTargetToBeCreated_rejects_after_all_attempts (remote : Remote)
    (n : Z) (st st' : state) (e : error) :
  waitForTargetToBeCreated remote n st = (inl e, st') ->
  exists errs,
    st' = add_trace (retries errs ++ [Called ListTargets; Logged e]) st /\
    S (length errs) = attempts n /\
    (forall i err,
       errs !! i = Some err ->
       fst (findPage remote (add_trace (retries (take i errs)) st)) = inl err) /\
    fst (findPage remote (add_trace (retries errs) st)) = inl e.
Proof.
  intros Hrun. destruct (attempts_positive n) as [k Hk]. rewrite Hk.
  destruct (waitForTargetToBeCreated_rejects_aux remote k n st st' e Hk Hrun)
    as (errs & Hst & Hlen & Hfail & Hlast).
  exists errs. by rewrite Hlen.
Qed.

Lemma waitForTargetToBeCreated_rejects_after_all_attempts_witness :
  exists errs,
    snd (waitForTargetToBeCreated moodyRemote 3 idle)
    = add_trace (retries errs ++ [Called ListTargets; Logged noTargets]) idle /\
    S (length errs) = attempts 3 /\
    (forall i err,
       errs !! i = Some err ->
       fst (findPage moodyRemote (add_trace (retries (take i errs)) idle)) = inl err) /\
    fst (findPage moodyRemote (add_trace (retries errs) idle)) = inl noTargets.
Proof.
  exact (waitForTargetToBeCreated_rejects_after_all_attempts moodyRemote 3 idle
           (snd (waitForTargetToBeCreated moodyRemote 3 idle)) noTargets eq_refl).
Defined.

(** The three attempts of that run: a rejected query, an empty list, a list
    without page. *)
Lemma waitForTargetToBeCreated_moody_trace :
  waitForTargetToBeCreated moodyRemote 3 idle
  = (inl noTargets,
     add_trace [Called ListTargets; Logged refused; Slept 100;
                Called ListTargets; Logged noTargets; Slept 100;
                Called ListTargets; Logged noTargets] idle).
Proof. reflexivity. Qed.

(** A page at the first query: nothing failed before it. *)
Lemma findPage_first_try (remote : Remote) (st : state) (t : Target.t) (k : nat) :
  findPage remote st = (inr t, add_trace [Called ListTargets] st) ->
  exists errs l,
    add_trace [Called ListTargets] st
    = add_trace (retries errs ++ [Called ListTargets]) st /\
    (length errs <= k)%nat /\
    failures_of remote st errs /\
    onList remote (trace st ++ retries errs) = inr l /\
    List.find Target.is_page l = Some t.
Proof.
  intros Hf. apply findPage_found in Hf as (l & Hl & Hfind).
  exists [], l. cbn [retries flat_map app]. rewrite app_nil_r.
  repeat split; try assumption; [cbn; lia | apply failures_of_nil].
Qed.

Lemma waitForTargetToBeCreated_returns_aux (remote : Remote) (k : nat) :
  forall (n : Z) (st st' : state) (t : Target.t),
    attempts n = S k ->
    waitForTargetToBeCreated remote n st = (inr t, st') ->
    exists errs l,
      st' = add_trace (retries errs ++ [Called ListTargets]) st /\
      (length errs <= k)%nat /\
      failures_of remote st errs /\
      onList remote (trace st ++ retries errs) = inr l /\
      List.find Target.is_page l = Some t.
Proof.
  induction k as [|k IH]; intros n st st' t Hk;
    rewrite waitForTargetToBeCreated_eq;
    pose proof (findPage_adds remote st) as Hst1;
    destruct (findPage remote st) as [[err|t0] st1] eqn:Hf;
    cbn [snd] in Hst1; subst st1;
    try (intros [= -> <-]; by apply findPage_first_try);
    destruct (Z_lt_dec n 2) as [Hn|Hn]; try discriminate;
    try (unfold attempts in Hk; lia).
  rewrite !emit_add_trace, !add_trace_add. intros Hrun.
  rewrite attempts_retry in Hk by lia. injection Hk as Hk.
  destruct (IH _ _ _ _ Hk Hrun) as (errs & l & -> & Hlen & Hfail & Hl & Hfind).
  exists (err :: errs), l. rewrite add_trace_add.
  cbn [add_trace trace] in Hl. rewrite <- app_assoc in Hl.
  repeat split; try assumption.
  - cbn. lia.
  - apply failures_of_cons; [by rewrite Hf | exact Hfail].
Qed.

(** X21: when [waitForTargetToBeCreated(n)] returns a target, against any
    browser, the target has type [page] and is the first page of the answer
    to the last list query, which is the last thing that happened; before it
    there were fewer than [max n 1] queries, and what happened is exactly, for
    each of them in turn, the query, the log of what it failed with, and a
    wait of 100ms; the module's variables are untouched. *)
Theorem waitForTargetToBeCreated_returns_first_page (remote : Remote)
    (n : Z) (st st' : state) (t : Target.t) :
  waitForTargetToBeCreated remote n st = (inr t, st') ->
  Target.type t = "page" /\
  exists errs l,
    st' = add_trace (retries errs ++ [Called ListTargets]) st /\
    (length errs < attempts n)%nat /\
    (forall i err,
       errs !! i = Some err ->
       fst (findPage remote (add_trace (retries (take i errs)) st)) = inl err) /\
    onList remote (trace st ++ retries errs) = inr l /\
    List.find Target.is_page l = Some t.
Proof.
  intros Hrun. destruct (attempts_positive n) as [k Hk]. rewrite Hk.
  destruct (waitForTargetToBeCreated_returns_aux remote k n st st' t Hk Hrun)
    as (errs & l & Hst & Hlen & Hfail & Hl & Hfind).
  split.
  - apply find_some in Hfind as [_ Hpage]. by apply is_page_type.
  - exists errs, l. repeat split; try assumption. lia.
Qed.

Lemma waitForTargetToBeCreated_returns_first_page_witness :
  Target.type otherPage = "page" /\
  exists errs l,
    snd (waitForTargetToBeCreated moodyRemote 5 idle)
    = add_trace (retries errs ++ [Called ListTargets]) idle /\
    (length errs < attempts 5)%nat /\
    (forall i err,
       errs !! i = Some err ->
       fst (findPage moodyRemote (add_trace (retries (take i errs)) idle)) = inl err) /\
    onList moodyRemote (trace idle ++ retries errs) = inr l /\
    List.find Target.is_page l = Some otherPage.
Proof.
  exact (waitForTargetToBeCreated_returns_first_page moodyRemote 5 idle
           (snd (waitForTargetToBeCreated moodyRemote 5 idle)) otherPage eq_refl).
Defined.

(** That run: three failed attempts, then the page. *)
Lemma waitForTargetToBeCreated_moody_page :
  waitForTargetToBeCreated moodyRemote 5 idle
  = (inr otherPage,
     add_trace [Called ListTargets; Logged refused; Slept 100;
                Called ListTargets; Logged noTargets; Slept 100;
                Called ListTargets; Logged noTargets; Slept 100;
                Called ListTargets] idle).
Proof. reflexivity. Qed.

(** ** The stale-context test *)

Local Open Scope string_scope.

Lemma startsWith_iff (p s : string) :
  Js.startsWith p s = true <-> exists after, s = p ++ after.
Proof.
  revert s. induction p as [|a p IH]; intros s; cbn.
  - split; [intros _; by exists s | reflexivity].
  - destruct s as [|b s].
    + split; [discriminate | intros [after H]; discriminate].
    + rewrite andb_true_iff, IH. split.
      * intros [Hab [after ->]]. apply Ascii.eqb_eq in Hab as ->. by exists after.
      * intros [after [= -> ->]]. split; [apply Ascii.eqb_refl | by exists after].
Qed.

(** [includes] answers [true] exactly for the strings [sub] occurs in. *)
Lemma includes_iff (s sub : string) :
  Js.includes s sub = true <-> occursIn sub s.
Proof.
  unfold occursIn. induction s as [|c s IH].
  - cbn. rewrite orb_false_r, startsWith_iff. split.
    + intros [after H]. by exists "", after.
    + intros (before & after & H). destruct before; [by exists after | discriminate].
  - cbn [Js.includes]. rewrite orb_true_iff, startsWith_iff, IH. split.
    + intros [[after H]|(before & after & ->)].
      * by exists "", after.
      * by exists (String c before), after.
    + intros (before & after & H). destruct before as [|c' before].
      * left. by exists after.
      * right. injection H as _ ->. by exists before, after.
Qed.

(** X22: the retry of [createTarget] is triggered by the text of the
    message alone: an error is taken for a stale context exactly when it has a
    [response] whose [message] has [Failed to find browser context with id] or
    [browserContextId] somewhere in it, whatever its code and whatever the
    request was rejected for. *)
Theorem staleContext_iff (e : error) :
  staleContext e = true <->
  exists msg r,
    e = RemoteError msg (Some r) /\
    (occursIn "Failed to find browser context with id" (message r) \/
     occursIn "browserContextId" (message r)).
Proof.
  unfold staleContext. split.
  - destruct e as [m|m|m [r|]|m]; cbn; try discriminate.
    rewrite andb_true_iff, orb_true_iff, !includes_iff.
    intros [_ H]. by exists m, r.
  - intros (m & r & -> & H). cbn.
    rewrite andb_true_iff, orb_true_iff, !includes_iff. split; [|exact H].
    apply negb_true_iff, is_empty_false.
    destruct H as [(before & after & ->)|(before & after & ->)];
      destruct before; discriminate.
Qed.
